(** * ArchiveBot pipeline stages (pipeline/archivebot/seesaw/tasks.py)

    A shallow embedding of the stages of the ArchiveBot worker pipeline and
    of the retry protocol of [RetryableTask], followed by the properties the
    specification states about them.

    Python objects are shared and mutable: a work item is addressed by a
    reference, and every stage is a state transformer over a [World] holding
    the items, the event loop's pending timeouts, the periodic timers and the
    record of what was handed to the collaborators (seesaw's pipeline, the
    filesystem).  Exceptions are results: whatever a stage changed before it
    raised stays changed. *)

From Stdlib Require Import ZArith String Ascii List Bool Lia.
From stdpp Require Import base option list gmap strings pretty.

Local Open Scope string_scope.
Local Open Scope Z_scope.

(** ** Python values *)

(** The values an item attribute can hold: the scalars a job descriptor
    carries, the periodic timer stored under ['heartbeat'], and the record
    stored under ['info']. *)
#[warnings="-register-all"]
Inductive PyVal : Type :=
| VNone
| VBool (b : bool)
| VInt (n : Z)
| VStr (s : string)
| VTimer (id : nat)
| VDict (kvs : list (string * PyVal)).

(** [str(v)], the conversion [%s] applies.  The text of a timer object (it
    shows an address) and of a dictionary is outside the model: [None]. *)
Definition py_str (v : PyVal) : option string :=
  match v with
  | VNone => Some "None"
  | VBool true => Some "True"
  | VBool false => Some "False"
  | VInt n => Some (pretty n)
  | VStr s => Some s
  | VTimer _ => None
  | VDict _ => None
  end.

(** Truth value of an object, as [if v:] tests it. *)
Definition py_truthy (v : PyVal) : bool :=
  match v with
  | VNone => false
  | VBool b => b
  | VInt n => negb (n =? 0)
  | VStr s => negb (String.length s =? 0)%nat
  | VTimer _ => true
  | VDict kvs => match kvs with [] => false | _ => true end
  end.

(** [v == None]. *)
Definition is_none (v : PyVal) : bool :=
  match v with VNone => true | _ => false end.

(** [v == s] for a string literal [s]. *)
Definition eq_str (v : PyVal) (s : string) : bool :=
  match v with VStr s' => bool_decide (s' = s) | _ => false end.

(** The exceptions the stages can meet.  [ConnectionError] is
    [archivebot.control.ConnectionError]; [ReprOutsideModel] marks the
    formatting of a value whose [str] the model does not give. *)
Inductive Exn : Type :=
| ConnectionError
| KeyError (k : string)
| TypeError
| AttributeError
| OSError
| OtherError (msg : string)
| ReprOutsideModel.

Inductive Result (A : Type) : Type :=
| Ret (a : A)
| Raise (e : Exn).
Arguments Ret {A} a.
Arguments Raise {A} e.

(** ** Work items and the world *)

(** A seesaw [Item]: the keyed attributes reached through [item[k]], the
    output log fed by [log_output], and the two cancellation flags. *)
Record Item : Type := mkItem {
  properties : gmap string PyVal;
  output : list string;
  may_be_canceled : bool;
  canceled : bool
}.

Definition ItemRef := nat.

(** A retryable stage instance.  [retry_delay] and [cancelable] are the
    class attributes of [RetryableTask] unless the constructor overrides
    them; [body] tells which [process] the instance runs, with the fields
    that [process] reads.  The field [control] is not kept here: what the
    controller answers is not the stage's to decide, and every entry point
    of a stage takes the controller as it is at that call. *)
Inductive Body : Type :=
| BGetItemFromQueue (pipeline_id : string)
| BRelabelIfAborted
| BSetWarcFileSizeInRedis
| BMarkItemAsDone (expire_time : Z).

Record RetryableTask : Type := mkTask {
  name : string;
  retry_delay : Z;
  cancelable : bool;
  body : Body
}.

(** [RetryableTask.__init__] with the class attributes
    [retry_delay = 5], [cancelable = False]. *)
Definition RetryableTask_init (nm : string) (b : Body) : RetryableTask :=
  {| name := nm; retry_delay := 5; cancelable := false; body := b |}.

(** [GetItemFromQueue.__init__(control, pipeline_id, retry_delay=5)];
    [pipeline_queue] is its field of that name, which no stage reads. *)
Definition pipeline_queue (pipeline_id : string) : string :=
  "pending:" +:+ pipeline_id.

Definition GetItemFromQueue (pipeline_id : string) (delay : Z) : RetryableTask :=
  let self := RetryableTask_init "GetItemFromQueue" (BGetItemFromQueue pipeline_id) in
  {| name := name self; retry_delay := delay; cancelable := true; body := body self |}.

Definition RelabelIfAborted : RetryableTask :=
  RetryableTask_init "RelabelIfAborted" BRelabelIfAborted.

Definition SetWarcFileSizeInRedis : RetryableTask :=
  RetryableTask_init "SetWarcFileSizeInRedis" BSetWarcFileSizeInRedis.

Definition MarkItemAsDone (expire_time : Z) : RetryableTask :=
  RetryableTask_init "MarkItemAsDone" (BMarkItemAsDone expire_time).

(** The retryable stages a pipeline is built from. *)
Inductive pipeline_stage : RetryableTask -> Prop :=
| stage_get pid d : pipeline_stage (GetItemFromQueue pid d)
| stage_relabel : pipeline_stage RelabelIfAborted
| stage_size : pipeline_stage SetWarcFileSizeInRedis
| stage_done e : pipeline_stage (MarkItemAsDone e).

(** A registration made with [IOLoop.add_timeout]: the delay in seconds and
    the callback [functools.partial(self.retry, item)], which keeps the
    stage and a reference to the item, not a copy of it. *)
Record Timeout : Type := mkTimeout {
  to_delay : Z;
  to_task : RetryableTask;
  to_item : ItemRef
}.

(** A [tornado.ioloop.PeriodicCallback] created by [StartHeartbeat]: the
    item its callback reports for, its period in milliseconds, and whether
    it is running. *)
Record Timer : Type := mkTimer {
  tm_item : ItemRef;
  tm_period : Z;
  tm_running : bool
}.

(** Calls made to the filesystem, with the arguments they were given. *)
Inductive FsOp : Type :=
| FsRmtree (path : PyVal)
| FsMakedirs (path : PyVal)
| FsRename (src dst : PyVal)
| FsOpenW (path : PyVal)
| FsWrite (path : PyVal) (data : string).

Record World : Type := mkWorld {
  items : ItemRef -> Item;
  timeouts : list Timeout;
  timers : list Timer;
  started : list (string * ItemRef);
  completed : list (string * ItemRef);
  fs_trace : list FsOp
}.

(** ** The collaborators *)

Abbreviation JobData := (gmap string PyVal).

(** [archivebot.control]: what each call answers, or the exception it
    raises.  [reserve_job] and [is_aborted] stand for the call followed by
    [.get()]; [mark_done] is shown the item as it is when called and does
    not change it. *)
Record Control : Type := mkControl {
  reserve_job : string -> Result (PyVal * JobData);
  is_aborted : PyVal -> Result PyVal;
  set_warc_size : PyVal -> PyVal -> Result unit;
  mark_done : Item -> Z -> Result unit;
  heartbeat : PyVal -> Result unit
}.

(** The operating system: whether a path is a directory, and whether a
    filesystem call goes through ([None]) or raises. *)
Record Fs : Type := mkFs {
  isdir : string -> bool;
  fs_fault : FsOp -> option Exn
}.

(** The local time [time.strftime] formats. *)
Record StructTime : Type := mkTime {
  tm_year : Z; tm_mon : Z; tm_mday : Z;
  tm_hour : Z; tm_min : Z; tm_sec : Z
}.

(** ** The monad of stage code *)

Definition M (A : Type) : Type := World -> Result A * World.

Definition ret {A} (a : A) : M A := fun w => (Ret a, w).

Definition raise {A} (e : Exn) : M A := fun w => (Raise e, w).

Definition bind {A B} (m : M A) (k : A -> M B) : M B :=
  fun w =>
    match m w with
    | (Ret a, w') => k a w'
    | (Raise e, w') => (Raise e, w')
    end.

Notation "x <- m ;; k" := (bind m (fun x => k))
  (at level 100, m at next level, right associativity).
Notation "m ;;; k" := (bind m (fun _ => k))
  (at level 100, right associativity).

(** [try: m except ConnectionError: h].  Any other exception passes. *)
Definition try_except_ConnectionError {A} (m : M A) (h : M A) : M A :=
  fun w =>
    match m w with
    | (Raise ConnectionError, w') => h w'
    | r => r
    end.

(** Lifting a collaborator's answer. *)
Definition call {A} (r : Result A) : M A := fun w => (r, w).

(** *** Access to one item *)

Definition upd_item (r : ItemRef) (f : Item -> Item) (w : World) : World :=
  {| items := fun r' => if decide (r' = r) then f (items w r') else items w r';
     timeouts := timeouts w;
     timers := timers w;
     started := started w;
     completed := completed w;
     fs_trace := fs_trace w |}.

Definition set_properties (p : gmap string PyVal) (it : Item) : Item :=
  {| properties := p; output := output it;
     may_be_canceled := may_be_canceled it; canceled := canceled it |}.

Definition set_output (o : list string) (it : Item) : Item :=
  {| properties := properties it; output := o;
     may_be_canceled := may_be_canceled it; canceled := canceled it |}.

Definition set_may_be_canceled (b : bool) (it : Item) : Item :=
  {| properties := properties it; output := output it;
     may_be_canceled := b; canceled := canceled it |}.

Definition set_canceled (b : bool) (it : Item) : Item :=
  {| properties := properties it; output := output it;
     may_be_canceled := may_be_canceled it; canceled := b |}.

(** [item[k]] *)
Definition getitem (r : ItemRef) (k : string) : M PyVal :=
  fun w =>
    match properties (items w r) !! k with
    | Some v => (Ret v, w)
    | None => (Raise (KeyError k), w)
    end.

(** The world once [item[k]] holds [v]. *)
Definition put (r : ItemRef) (k : string) (v : PyVal) (w : World) : World :=
  upd_item r (fun it => set_properties (<[k:=v]> (properties it)) it) w.

(** [item[k] = v] *)
Definition setitem (r : ItemRef) (k : string) (v : PyVal) : M unit :=
  fun w => (Ret tt, put r k v w).

(** [k in item] *)
Definition contains (r : ItemRef) (k : string) : M bool :=
  fun w => (Ret (bool_decide (is_Some (properties (items w r) !! k))), w).

(** The world once [item[k]] is gone. *)
Definition unset (r : ItemRef) (k : string) (w : World) : World :=
  upd_item r (fun it => set_properties (delete k (properties it)) it) w.

(** [del item[k]] *)
Definition delitem (r : ItemRef) (k : string) : M unit :=
  fun w =>
    match properties (items w r) !! k with
    | Some _ => (Ret tt, unset r k w)
    | None => (Raise (KeyError k), w)
    end.

(** The world once the item's output ends with the line [s]. *)
Definition note (r : ItemRef) (s : string) (w : World) : World :=
  upd_item r (fun it => set_output (output it ++ [s]) it) w.

(** [item.log_output(s)] *)
Definition log_output (r : ItemRef) (s : string) : M unit :=
  fun w => (Ret tt, note r s w).

(** [str(v)] inside a format. *)
Definition fmt (v : PyVal) : M string :=
  match py_str v with
  | Some s => ret s
  | None => raise ReprOutsideModel
  end.

(** The conversion [%(k)s] of a format applied to the item. *)
Definition fmt_key (r : ItemRef) (k : string) : M string :=
  v <- getitem r k ;; fmt v.

(** ** seesaw's [Task] and the event loop *)

(** [str(self)]: seesaw's [Task.__str__] gives the name the constructor
    received. *)
Definition task_str (t : RetryableTask) : string := name t.

(** The world once the pipeline was told that stage [nm] began on [r]. *)
Definition mark_started (nm : string) (r : ItemRef) (w : World) : World :=
  {| items := items w; timeouts := timeouts w; timers := timers w;
     started := started w ++ [(nm, r)];
     completed := completed w; fs_trace := fs_trace w |}.

(** [self.start_item(item)] *)
Definition start_item (t : RetryableTask) (r : ItemRef) : M unit :=
  fun w => (Ret tt, mark_started (name t) r w).

(** The world once stage [nm] handed item [r] to the next stage. *)
Definition mark_completed (nm : string) (r : ItemRef) (w : World) : World :=
  {| items := items w; timeouts := timeouts w; timers := timers w;
     started := started w;
     completed := completed w ++ [(nm, r)]; fs_trace := fs_trace w |}.

(** [self.complete_item(item)]: the item is handed to the next stage.  The
    hand-over itself does not fail; the next stage's own run is a separate
    step of the pipeline. *)
Definition complete_item (nm : string) (r : ItemRef) : M unit :=
  fun w => (Ret tt, mark_completed nm r w).

(** The world once the event loop holds one more timeout. *)
Definition register_timeout (to : Timeout) (w : World) : World :=
  {| items := items w;
     timeouts := timeouts w ++ [to];
     timers := timers w; started := started w;
     completed := completed w; fs_trace := fs_trace w |}.

(** [IOLoop.instance().add_timeout(timedelta(seconds=d), partial(t.retry, item))] *)
Definition add_timeout (d : Z) (t : RetryableTask) (r : ItemRef) : M unit :=
  fun w => (Ret tt, register_timeout (mkTimeout d t r) w).

(** ** RetryableTask *)

(** [item.may_be_canceled = b] *)
Definition assign_may_be_canceled (r : ItemRef) (b : bool) : M unit :=
  fun w => (Ret tt, upd_item r (set_may_be_canceled b) w).

Definition schedule_retry (t : RetryableTask) (r : ItemRef) : M unit :=
  assign_may_be_canceled r (cancelable t) ;;;
  add_timeout (retry_delay t) t r.

Definition retry_notice (reason : string) (t : RetryableTask) : string :=
  reason +:+ ". Retrying " +:+ task_str t +:+ " in " +:+ pretty (retry_delay t)
         +:+ " seconds.".

Definition notify_retry (reason : string) (t : RetryableTask) (r : ItemRef) : M unit :=
  log_output r (retry_notice reason t).

Definition connection_reason : string := "Lost connection to ArchiveBot controller".

Definition notify_connection_error (t : RetryableTask) (r : ItemRef) : M unit :=
  notify_retry connection_reason t r.

(** [job_data.get(k)] *)
Definition job_get (job_data : JobData) (k : string) : PyVal :=
  default VNone (job_data !! k).

(** [TargetPathMixin.set_target_paths] *)
Definition set_target_paths (r : ItemRef) : M unit :=
  d <- fmt_key r "data_dir" ;;
  b <- fmt_key r "warc_file_base" ;;
  setitem r "target_warc_file" (VStr (d +:+ "/" +:+ b +:+ ".warc.gz")) ;;;
  d <- fmt_key r "data_dir" ;;
  b <- fmt_key r "warc_file_base" ;;
  setitem r "target_info_file" (VStr (d +:+ "/" +:+ b +:+ ".json")).

Definition on_connection_error (t : RetryableTask) (r : ItemRef) : M unit :=
  notify_connection_error t r ;;;
  schedule_retry t r.

Definition GetItemFromQueue_process (ctl : Control) (pipeline_id : string)
    (t : RetryableTask) (r : ItemRef) : M unit :=
  try_except_ConnectionError
    (res <- call (reserve_job ctl pipeline_id) ;;
     let ident := fst res in
     let job_data := snd res in
     if is_none ident then schedule_retry t r
     else
       setitem r "fetch_depth" (job_get job_data "fetch_depth") ;;;
       setitem r "ident" ident ;;;
       setitem r "log_key" (job_get job_data "log_key") ;;;
       setitem r "pipeline_id" (VStr pipeline_id) ;;;
       setitem r "queued_at" (job_get job_data "queued_at") ;;;
       setitem r "slug" (job_get job_data "slug") ;;;
       setitem r "started_by" (job_get job_data "started_by") ;;;
       setitem r "started_in" (job_get job_data "started_in") ;;;
       setitem r "url" (job_get job_data "url") ;;;
       s <- fmt ident ;;
       log_output r ("Received item " +:+ s +:+ ".") ;;;
       complete_item (name t) r)
    (on_connection_error t r).

Definition RelabelIfAborted_process (ctl : Control)
    (t : RetryableTask) (r : ItemRef) : M unit :=
  try_except_ConnectionError
    (ident <- getitem r "ident" ;;
     a <- call (is_aborted ctl ident) ;;
     (if py_truthy a then
        setitem r "aborted" (VBool true) ;;;
        b <- fmt_key r "warc_file_base" ;;
        setitem r "warc_file_base" (VStr (b +:+ "-aborted")) ;;;
        set_target_paths r ;;;
        p <- fmt_key r "target_warc_file" ;;
        log_output r ("Adjusted target WARC path to " +:+ p)
      else ret tt) ;;;
     complete_item (name t) r)
    (on_connection_error t r).

Definition SetWarcFileSizeInRedis_process (ctl : Control)
    (t : RetryableTask) (r : ItemRef) : M unit :=
  try_except_ConnectionError
    (ident <- getitem r "ident" ;;
     p <- getitem r "target_warc_file" ;;
     call (set_warc_size ctl ident p) ;;;
     complete_item (name t) r)
    (on_connection_error t r).

Definition MarkItemAsDone_process (ctl : Control) (expire_time : Z)
    (t : RetryableTask) (r : ItemRef) : M unit :=
  try_except_ConnectionError
    (it <- (fun w => (Ret (items w r), w)) ;;
     call (mark_done ctl it expire_time) ;;;
     complete_item (name t) r)
    (on_connection_error t r).

(** [self.process(item)], by the class of [self]. *)
Definition process (ctl : Control) (t : RetryableTask) (r : ItemRef) : M unit :=
  match body t with
  | BGetItemFromQueue pid => GetItemFromQueue_process ctl pid t r
  | BRelabelIfAborted => RelabelIfAborted_process ctl t r
  | BSetWarcFileSizeInRedis => SetWarcFileSizeInRedis_process ctl t r
  | BMarkItemAsDone e => MarkItemAsDone_process ctl e t r
  end.

(** [RetryableTask.enqueue]; [descr] is [item.description()]. *)
Definition enqueue (ctl : Control) (descr : Item -> string)
    (t : RetryableTask) (r : ItemRef) : M unit :=
  start_item t r ;;;
  d <- (fun w => (Ret (descr (items w r)), w)) ;;
  log_output r ("Starting " +:+ task_str t +:+ " for " +:+ d) ;;;
  process ctl t r.

(** [RetryableTask.retry] *)
Definition retry (ctl : Control) (t : RetryableTask) (r : ItemRef) : M unit :=
  c <- (fun w => (Ret (canceled (items w r)), w)) ;;
  if negb c then
    assign_may_be_canceled r false ;;;
    process ctl t r
  else ret tt.

(** ** The simple stages *)

(** *** StartHeartbeat / StopHeartbeat *)

(** [tornado.ioloop.PeriodicCallback(partial(self.send_heartbeat, item), 1000)]:
    a new timer object, not yet running; its handle is its position. *)
Definition new_periodic_callback (r : ItemRef) (period : Z) : M PyVal :=
  fun w =>
    (Ret (VTimer (length (timers w))),
     {| items := items w; timeouts := timeouts w;
        timers := timers w ++ [mkTimer r period false];
        started := started w; completed := completed w;
        fs_trace := fs_trace w |}).

Definition set_running (b : bool) (tm : Timer) : Timer :=
  {| tm_item := tm_item tm; tm_period := tm_period tm; tm_running := b |}.

(** The world once timer [id] runs ([b] true) or is stopped. *)
Definition switch (b : bool) (id : nat) (w : World) : World :=
  {| items := items w; timeouts := timeouts w;
     timers := alter (set_running b) id (timers w);
     started := started w; completed := completed w;
     fs_trace := fs_trace w |}.

(** [cb.start()] and [cb.stop()] on a value; only a timer has them. *)
Definition timer_switch (b : bool) (v : PyVal) : M unit :=
  match v with
  | VTimer id => fun w => (Ret tt, switch b id w)
  | _ => raise AttributeError
  end.

Definition StartHeartbeat_process (r : ItemRef) : M unit :=
  cb <- new_periodic_callback r 1000 ;;
  setitem r "heartbeat" cb ;;;
  timer_switch true cb.

Definition send_heartbeat (ctl : Control) (r : ItemRef) : M unit :=
  ident <- getitem r "ident" ;;
  call (heartbeat ctl ident).

Definition heartbeat_warning : string := "Warning: couldn't find a heartbeat to stop".

Definition StopHeartbeat_process (r : ItemRef) : M unit :=
  present <- contains r "heartbeat" ;;
  if (present : bool) then
    cb <- getitem r "heartbeat" ;;
    timer_switch false cb ;;;
    delitem r "heartbeat"
  else
    log_output r heartbeat_warning.

(** *** SetFetchDepth *)

Definition SetFetchDepth_process (r : ItemRef) : M unit :=
  depth <- getitem r "fetch_depth" ;;
  if eq_str depth "shallow" then
    setitem r "recursive" (VStr "") ;;;
    setitem r "level" (VStr "") ;;;
    setitem r "depth" (VStr "")
  else
    setitem r "recursive" (VStr "--recursive") ;;;
    setitem r "level" (VStr "--level") ;;;
    setitem r "depth" depth.

(** *** PreparePaths *)

(** A filesystem call: it raises what the system reports, or is done and
    recorded. *)
Definition record_fs (op : FsOp) (w : World) : World :=
  {| items := items w; timeouts := timeouts w; timers := timers w;
     started := started w; completed := completed w;
     fs_trace := fs_trace w ++ [op] |}.

Definition fs_do (fs : Fs) (op : FsOp) : M unit :=
  fun w =>
    match fs_fault fs op with
    | Some e => (Raise e, w)
    | None => (Ret tt, record_fs op w)
    end.

Fixpoint zeros (n : nat) : string :=
  match n with
  | O => ""
  | S n' => "0" +:+ zeros n'
  end.

(** A non-negative field of the time, in decimal, zero-padded to [width]. *)
Definition padded (width : nat) (n : Z) : string :=
  let s := pretty n in
  zeros (width - String.length s) +:+ s.

(** [time.strftime("%Y%m%d-%H%M%S")] at the local time [now]; the year is
    written with four digits, as it is for the years 1000 to 9999. *)
Definition strftime_stamp (now : StructTime) : string :=
  padded 4 (tm_year now) +:+ padded 2 (tm_mon now) +:+ padded 2 (tm_mday now)
  +:+ "-" +:+
  padded 2 (tm_hour now) +:+ padded 2 (tm_min now) +:+ padded 2 (tm_sec now).

(** [v[0:5]]: a string gives its first five characters (fewer when it is
    shorter); the other values cannot be sliced. *)
Definition slice_0_5 (v : PyVal) : M string :=
  match v with
  | VStr s => ret (String.substring 0 5 s)
  | _ => raise TypeError
  end.

Definition PreparePaths_process (fs : Fs) (now : StructTime) (r : ItemRef) : M unit :=
  d <- fmt_key r "data_dir" ;;
  i <- fmt_key r "ident" ;;
  let item_dir := d +:+ "/" +:+ i in
  ident <- getitem r "ident" ;;
  last_five <- slice_0_5 ident ;;
  (if isdir fs item_dir then fs_do fs (FsRmtree (VStr item_dir)) else ret tt) ;;;
  fs_do fs (FsMakedirs (VStr item_dir)) ;;;
  setitem r "item_dir" (VStr item_dir) ;;;
  slug <- getitem r "slug" ;;
  let stamp := strftime_stamp now in
  s <- fmt slug ;;
  setitem r "warc_file_base" (VStr (s +:+ "-" +:+ stamp +:+ "-" +:+ last_five)) ;;;
  dir <- fmt_key r "item_dir" ;;
  b <- fmt_key r "warc_file_base" ;;
  setitem r "source_warc_file" (VStr (dir +:+ "/" +:+ b +:+ ".warc.gz")) ;;;
  dir <- fmt_key r "item_dir" ;;
  b <- fmt_key r "warc_file_base" ;;
  setitem r "source_info_file" (VStr (dir +:+ "/" +:+ b +:+ ".json")) ;;;
  dir <- fmt_key r "item_dir" ;;
  setitem r "cookie_jar" (VStr (dir +:+ "/cookies.txt")) ;;;
  set_target_paths r.

(** *** MoveFiles *)

Definition MoveFiles_process (fs : Fs) (r : ItemRef) : M unit :=
  sw <- getitem r "source_warc_file" ;;
  tw <- getitem r "target_warc_file" ;;
  fs_do fs (FsRename sw tw) ;;;
  si <- getitem r "source_info_file" ;;
  ti <- getitem r "target_info_file" ;;
  fs_do fs (FsRename si ti) ;;;
  dir <- fmt_key r "item_dir" ;;
  fs_do fs (FsRmtree (VStr dir)).

(** *** WriteInfo *)

Definition dquote : string := String (ascii_of_nat 34) "".
Definition newline : string := String (ascii_of_nat 10) "".

Definition hex_digit (n : nat) : string :=
  String.substring n 1 "0123456789abcdef".

(** One character of a JSON string, as [json.dumps] writes it with
    [ensure_ascii]: the characters of a string are taken as code points
    below 256. *)
Definition json_escape_char (c : ascii) : string :=
  let n := nat_of_ascii c in
  if (n =? 34)%nat then "\" +:+ dquote
  else if (n =? 92)%nat then "\\"
  else if (n =? 8)%nat then "\b"
  else if (n =? 9)%nat then "\t"
  else if (n =? 10)%nat then "\n"
  else if (n =? 12)%nat then "\f"
  else if (n =? 13)%nat then "\r"
  else if ((32 <=? n) && (n <=? 126))%nat then String c ""
  else "\u00" +:+ hex_digit (n / 16) +:+ hex_digit (n mod 16).

Fixpoint json_escape (s : string) : string :=
  match s with
  | EmptyString => ""
  | String c s' => json_escape_char c +:+ json_escape s'
  end.

Definition json_string (s : string) : string :=
  dquote +:+ json_escape s +:+ dquote.

Fixpoint spaces (n : nat) : string :=
  match n with
  | O => ""
  | S n' => " " +:+ spaces n'
  end.

Definition newline_indent (level : nat) : string := newline +:+ spaces level.

(** [json.dumps(v, indent=True)] at nesting depth [level], as Python 3
    writes it: [True] counts as an indent of one space per level, the
    members of a record come one per line in the order they were given,
    separated by a comma, and a key is separated from its value by a colon
    and a space.  A timer is not serializable. *)
Fixpoint json_encode (level : nat) (v : PyVal) {struct v} : Result string :=
  match v with
  | VNone => Ret "null"
  | VBool true => Ret "true"
  | VBool false => Ret "false"
  | VInt n => Ret (pretty n)
  | VStr s => Ret (json_string s)
  | VTimer _ => Raise TypeError
  | VDict kvs =>
      match kvs with
      | [] => Ret "{}"
      | _ =>
          let fix members (l : list (string * PyVal)) : Result (list string) :=
            match l with
            | [] => Ret []
            | p :: l' =>
                match json_encode (S level) (snd p) with
                | Raise e => Raise e
                | Ret sx =>
                    match members l' with
                    | Raise e => Raise e
                    | Ret ss => Ret ((json_string (fst p) +:+ ": " +:+ sx) :: ss)
                    end
                end
            end in
          match members kvs with
          | Raise e => Raise e
          | Ret ss =>
              Ret ("{" +:+ newline_indent (S level)
                   +:+ String.concat ("," +:+ newline_indent (S level)) ss
                   +:+ newline_indent level +:+ "}")
          end
      end
  end.

Definition json_dumps (v : PyVal) : M string := call (json_encode 0 v).

(** The keys of the metadata record, in the order the literal lists them. *)
Definition info_keys : list string :=
  ["aborted"; "fetch_depth"; "pipeline_id"; "queued_at";
   "started_by"; "started_in"; "url"].

Definition WriteInfo_process (fs : Fs) (r : ItemRef) : M unit :=
  present <- contains r "aborted" ;;
  aborted <- (if (present : bool) then getitem r "aborted" else ret (VBool false)) ;;
  fetch_depth <- getitem r "fetch_depth" ;;
  pipeline_id <- getitem r "pipeline_id" ;;
  queued_at <- getitem r "queued_at" ;;
  started_by <- getitem r "started_by" ;;
  started_in <- getitem r "started_in" ;;
  url <- getitem r "url" ;;
  setitem r "info"
    (VDict [("aborted", aborted); ("fetch_depth", fetch_depth);
            ("pipeline_id", pipeline_id); ("queued_at", queued_at);
            ("started_by", started_by); ("started_in", started_in);
            ("url", url)]) ;;;
  path <- getitem r "source_info_file" ;;
  fs_do fs (FsOpenW path) ;;;
  info <- getitem r "info" ;;
  text <- json_dumps info ;;
  fs_do fs (FsWrite path text).

(** ** Running the pipeline *)

(** What can happen to a world: seesaw enqueues an item on a retryable
    stage or runs a simple stage on it, the event loop fires a pending
    timeout or a heartbeat tick, or the operator's cancellation request
    reaches an item that may be canceled. *)
Inductive Event : Type :=
| EvEnqueue (ctl : Control) (descr : Item -> string) (t : RetryableTask) (r : ItemRef)
| EvFire (ctl : Control) (i : nat)
| EvCancel (r : ItemRef)
| EvStartHeartbeat (r : ItemRef)
| EvTick (ctl : Control) (id : nat)
| EvSetFetchDepth (r : ItemRef)
| EvPreparePaths (fs : Fs) (now : StructTime) (r : ItemRef)
| EvWriteInfo (fs : Fs) (r : ItemRef)
| EvMoveFiles (fs : Fs) (r : ItemRef)
| EvStopHeartbeat (r : ItemRef).

(** The world once the [i]-th pending timeout is off the queue. *)
Definition drop_timeout (i : nat) (w : World) : World :=
  {| items := items w;
     timeouts := take i (timeouts w) ++ drop (S i) (timeouts w);
     timers := timers w; started := started w;
     completed := completed w; fs_trace := fs_trace w |}.

(** The event loop takes the [i]-th pending timeout off its queue and
    calls it. *)
Definition fire (ctl : Control) (i : nat) : M unit :=
  fun w =>
    match timeouts w !! i with
    | Some to => retry ctl (to_task to) (to_item to) (drop_timeout i w)
    | None => (Ret tt, w)
    end.

(** A cancellation request, which is seesaw's to carry out: it reaches only
    an item whose [may_be_canceled] is set, and marks it [canceled]. *)
Definition cancel (r : ItemRef) : M unit :=
  fun w =>
    if may_be_canceled (items w r)
    then (Ret tt, upd_item r (set_canceled true) w)
    else (Ret tt, w).

(** A tick of the [id]-th periodic timer, when it is running. *)
Definition tick (ctl : Control) (id : nat) : M unit :=
  fun w =>
    match timers w !! id with
    | Some tm => if tm_running tm then send_heartbeat ctl (tm_item tm) w else (Ret tt, w)
    | None => (Ret tt, w)
    end.

Definition run (ev : Event) : M unit :=
  match ev with
  | EvEnqueue ctl descr t r => enqueue ctl descr t r
  | EvFire ctl i => fire ctl i
  | EvCancel r => cancel r
  | EvStartHeartbeat r => StartHeartbeat_process r
  | EvTick ctl id => tick ctl id
  | EvSetFetchDepth r => SetFetchDepth_process r
  | EvPreparePaths fs now r => PreparePaths_process fs now r
  | EvWriteInfo fs r => WriteInfo_process fs r
  | EvMoveFiles fs r => MoveFiles_process fs r
  | EvStopHeartbeat r => StopHeartbeat_process r
  end.

Definition exec (ev : Event) (w : World) : World := snd (run ev w).

(** Only the stages of the pipeline are enqueued. *)
Definition event_ok (ev : Event) : Prop :=
  match ev with
  | EvEnqueue _ _ t _ => pipeline_stage t
  | _ => True
  end.

(** Where a run starts: seesaw creates items with neither flag set, and
    nothing has been scheduled yet. *)
Definition initial (w : World) : Prop :=
  timeouts w = [] /\
  forall r, may_be_canceled (items w r) = false /\ canceled (items w r) = false.

Inductive reachable : World -> Prop :=
| reach_init w : initial w -> reachable w
| reach_step ev w : reachable w -> event_ok ev -> reachable (exec ev w).

(** A retry of the reservation stage is pending for item [r]. *)
Definition pending_reservation (w : World) (r : ItemRef) : Prop :=
  exists to pid, to ∈ timeouts w /\ to_item to = r /\
                 body (to_task to) = BGetItemFromQueue pid.

(** ** Vocabulary of the properties *)

(** [quiet w w']: from [w] to [w'] no timeout was registered or removed, no
    item was completed, and no item's [may_be_canceled] or [canceled]
    changed. *)
Definition quiet (w w' : World) : Prop :=
  timeouts w' = timeouts w /\
  completed w' = completed w /\
  forall r, may_be_canceled (items w' r) = may_be_canceled (items w r) /\
            canceled (items w' r) = canceled (items w r).

(** Code that is [quiet] however it ends. *)
Definition keeps {A} (m : M A) : Prop := forall w, quiet w (snd (m w)).

(** [completing nm r w w']: from [w] to [w'] stage [nm] completed item [r]
    once, and the scheduler and the flags are as they were. *)
Definition completing (nm : string) (r : ItemRef) (w w' : World) : Prop :=
  timeouts w' = timeouts w /\
  completed w' = (completed w ++ [(nm, r)])%list /\
  forall r', may_be_canceled (items w' r') = may_be_canceled (items w r') /\
             canceled (items w' r') = canceled (items w r').

(** Code that completes the item when it returns and is [quiet] when it
    raises. *)
Definition completes {A} (nm : string) (r : ItemRef) (m : M A) : Prop :=
  forall w,
    match fst (m w) with
    | Ret _ => completing nm r w (snd (m w))
    | Raise _ => quiet w (snd (m w))
    end.

(** [retry_step t r w w']: from [w] to [w'] exactly one timeout was
    registered, for stage [t] on item [r] after [retry_delay t] seconds, the
    item's [may_be_canceled] took the stage's [cancelable], and nothing was
    completed. *)
Definition retry_step (t : RetryableTask) (r : ItemRef) (w w' : World) : Prop :=
  timeouts w' = (timeouts w ++ [mkTimeout (retry_delay t) t r])%list /\
  completed w' = completed w /\
  may_be_canceled (items w' r) = cancelable t /\
  (forall r', r' <> r -> may_be_canceled (items w' r') = may_be_canceled (items w r')) /\
  (forall r', canceled (items w' r') = canceled (items w r')).

(** The three ways a run of [process] can end. *)
Definition process_ending (t : RetryableTask) (r : ItemRef)
    (res : Result unit) (w w' : World) : Prop :=
  match res with
  | Ret _ => completing (name t) r w w' \/ retry_step t r w w'
  | Raise _ => quiet w w'
  end.

(** The connection-lost condition of a stage: the call it makes to the
    controller raises [ConnectionError]. *)
Definition connection_lost (ctl : Control) (t : RetryableTask) (r : ItemRef)
    (w : World) : Prop :=
  match body t with
  | BGetItemFromQueue pid => reserve_job ctl pid = Raise ConnectionError
  | BRelabelIfAborted =>
      exists ident, properties (items w r) !! "ident" = Some ident /\
                    is_aborted ctl ident = Raise ConnectionError
  | BSetWarcFileSizeInRedis =>
      exists ident p, properties (items w r) !! "ident" = Some ident /\
                      properties (items w r) !! "target_warc_file" = Some p /\
                      set_warc_size ctl ident p = Raise ConnectionError
  | BMarkItemAsDone e => mark_done ctl (items w r) e = Raise ConnectionError
  end.

(** [retry_outcome t r notes w w']: all that changed from [w] to [w'] is
    that item [r] got [notes] appended to its output and its
    [may_be_canceled] set to [cancelable t], and that one timeout for
    [t.retry] on [r] was registered. *)
Definition retry_outcome (t : RetryableTask) (r : ItemRef) (notes : list string)
    (w w' : World) : Prop :=
  items w' r =
    {| properties := properties (items w r);
       output := (output (items w r) ++ notes)%list;
       may_be_canceled := cancelable t;
       canceled := canceled (items w r) |} /\
  (forall r', r' <> r -> items w' r' = items w r') /\
  timeouts w' = (timeouts w ++ [mkTimeout (retry_delay t) t r])%list /\
  timers w' = timers w /\ started w' = started w /\
  completed w' = completed w /\ fs_trace w' = fs_trace w.

(** [quiet_flags w w']: the scheduler and the flags are in [w'] as in [w]. *)
Definition quiet_flags (w w' : World) : Prop :=
  timeouts w' = timeouts w /\
  forall r, may_be_canceled (items w' r) = may_be_canceled (items w r) /\
            canceled (items w' r) = canceled (items w r).

(** *** The shape of a timestamp *)

Definition is_digit (c : ascii) : bool :=
  let n := nat_of_ascii c in ((48 <=? n) && (n <=? 57))%nat.

(** [s] is made of exactly [n] decimal digits. *)
Fixpoint n_digits (n : nat) (s : string) : bool :=
  match n, s with
  | O, EmptyString => true
  | S n', String c s' => is_digit c && n_digits n' s'
  | _, _ => false
  end.

(** [YYYYMMDD-HHMMSS] *)
Definition stamp_shape (stamp : string) : Prop :=
  exists year mon mday hour min sec,
    stamp = year +:+ mon +:+ mday +:+ "-" +:+ hour +:+ min +:+ sec /\
    n_digits 4 year = true /\ n_digits 2 mon = true /\ n_digits 2 mday = true /\
    n_digits 2 hour = true /\ n_digits 2 min = true /\ n_digits 2 sec = true.

(** A local time as the clock gives it, in a year of four digits. *)
Definition valid_time (now : StructTime) : Prop :=
  1000 <= tm_year now <= 9999 /\ 1 <= tm_mon now <= 12 /\
  1 <= tm_mday now <= 31 /\ 0 <= tm_hour now <= 23 /\
  0 <= tm_min now <= 59 /\ 0 <= tm_sec now <= 61.

(** Every pending timeout belongs to a stage of the pipeline. *)
Definition stages_only (w : World) : Prop :=
  forall to, to ∈ timeouts w -> pipeline_stage (to_task to).

(** An item's [may_be_canceled] is set only while a retry of the reservation
    stage is pending for it, or once it has been canceled. *)
Definition window (w : World) : Prop :=
  forall r, may_be_canceled (items w r) = true ->
            pending_reservation w r \/ canceled (items w r) = true.

(** Event [ev], happening in world [w], runs the reservation stage on
    item [r]: seesaw enqueues the item on it, or one of its retries fires. *)
Definition runs_reservation (ev : Event) (w : World) (r : ItemRef) : Prop :=
  match ev with
  | EvEnqueue _ _ t r' => r' = r /\ exists pid, body t = BGetItemFromQueue pid
  | EvFire _ i =>
      exists to pid, timeouts w !! i = Some to /\ to_item to = r /\
                     body (to_task to) = BGetItemFromQueue pid
  | _ => False
  end.

(** The last timeout registered in [w] is a retry of the reservation stage
    for item [r]. *)
Definition reservation_retry_registered (w : World) (r : ItemRef) : Prop :=
  exists pre to pid, timeouts w = (pre ++ [to])%list /\ to_item to = r /\
                     body (to_task to) = BGetItemFromQueue pid.

(** *** Collaborators and worlds used as examples *)

(** A controller that cannot be reached. *)
Definition lost_control : Control :=
  {| reserve_job := fun _ => Raise ConnectionError;
     is_aborted := fun _ => Raise ConnectionError;
     set_warc_size := fun _ _ => Raise ConnectionError;
     mark_done := fun _ _ => Raise ConnectionError;
     heartbeat := fun _ => Raise ConnectionError |}.

(** A controller with an empty queue. *)
Definition idle_control : Control :=
  {| reserve_job := fun _ => Ret (VNone, ∅);
     is_aborted := fun _ => Ret (VBool false);
     set_warc_size := fun _ _ => Ret tt;
     mark_done := fun _ _ => Ret tt;
     heartbeat := fun _ => Ret tt |}.

Definition example_job : JobData :=
  {[ "slug" := VStr "example"; "fetch_depth" := VStr "shallow";
     "url" := VStr "http://x" ]}.

(** A controller that hands out job [abc123] and reports it aborted. *)
Definition busy_control : Control :=
  {| reserve_job := fun _ =>
       Ret (VStr "abc123", example_job);
     is_aborted := fun _ => Ret (VBool true);
     set_warc_size := fun _ _ => Ret tt;
     mark_done := fun _ _ => Ret tt;
     heartbeat := fun _ => Ret tt |}.

(** A controller that hands out job [abc123], which nobody aborted. *)
Definition serving_control : Control :=
  {| reserve_job := fun _ => Ret (VStr "abc123", example_job);
     is_aborted := fun _ => Ret (VBool false);
     set_warc_size := fun _ _ => Ret tt;
     mark_done := fun _ _ => Ret tt;
     heartbeat := fun _ => Ret tt |}.

(** A filesystem on which every call goes through. *)
Definition sound_fs : Fs := {| isdir := fun _ => false; fs_fault := fun _ => None |}.

Definition blank_item : Item :=
  {| properties := {[ "data_dir" := VStr "/data" ]}; output := [];
     may_be_canceled := false; canceled := false |}.

Definition blank_world : World :=
  {| items := fun _ => blank_item; timeouts := []; timers := [];
     started := []; completed := []; fs_trace := [] |}.

Definition no_description (it : Item) : string := "Item ".

Definition run_all (evs : list Event) (w : World) : World :=
  fold_left (fun w ev => exec ev w) evs w.

(** An item waits for a job on an empty queue. *)
Definition waiting_world : World :=
  exec (EvEnqueue idle_control no_description (GetItemFromQueue "p1" 5) 0%nat)
       blank_world.

(** The wait is canceled, and then its retry fires. *)
Definition canceled_world : World := exec (EvCancel 0%nat) waiting_world.

Definition dropped_world : World := exec (EvFire idle_control 0%nat) canceled_world.

(** The job attributes of a work item. *)
Definition job_attributes : list string :=
  ["fetch_depth"; "ident"; "log_key"; "pipeline_id"; "queued_at"; "slug";
   "started_by"; "started_in"; "url"].

(** Those of them the reservation stage reads from the job descriptor. *)
Definition descriptor_attributes : list string :=
  ["fetch_depth"; "log_key"; "queued_at"; "slug";
   "started_by"; "started_in"; "url"].

(** Every job attribute of [it] is what the descriptor holds under the
    same key. *)
Definition populated_from (job_data : JobData) (it : Item) : Prop :=
  forall k, k ∈ job_attributes -> properties it !! k = Some (job_get job_data k).

(** An item has received job [abc123]. *)
Definition reserved_world : World :=
  snd (process busy_control (GetItemFromQueue "p1" 5) 0%nat blank_world).

Definition example_time : StructTime :=
  {| tm_year := 2014; tm_mon := 3; tm_mday := 7;
     tm_hour := 9; tm_min := 5; tm_sec := 0 |}.

(** Job [abc123] has been received, its heartbeat started, its fetch depth
    translated and its paths prepared. *)
Definition prepared_world : World :=
  run_all
    [EvEnqueue busy_control no_description (GetItemFromQueue "p1" 5) 0%nat;
     EvStartHeartbeat 0%nat;
     EvSetFetchDepth 0%nat;
     EvPreparePaths sound_fs example_time 0%nat]
    blank_world.

(** The job was then found aborted and relabeled. *)
Definition relabeled_world : World :=
  exec (EvEnqueue busy_control no_description RelabelIfAborted 0%nat) prepared_world.

(** The stages in the order the pipeline runs them (the fetch itself, which
    comes after [PreparePaths], is not a stage of this file), all of them
    succeeding at once. *)
Definition smooth_run : World :=
  run_all
    [EvEnqueue serving_control no_description (GetItemFromQueue "p1" 5) 0%nat;
     EvStartHeartbeat 0%nat;
     EvSetFetchDepth 0%nat;
     EvPreparePaths sound_fs example_time 0%nat;
     EvEnqueue serving_control no_description RelabelIfAborted 0%nat;
     EvWriteInfo sound_fs 0%nat;
     EvMoveFiles sound_fs 0%nat;
     EvEnqueue serving_control no_description SetWarcFileSizeInRedis 0%nat;
     EvStopHeartbeat 0%nat;
     EvEnqueue serving_control no_description (MarkItemAsDone 3600) 0%nat]
    blank_world.

(** The controller is out of reach twice, then hands out a job. *)
Definition flaky_run : World :=
  run_all
    [EvEnqueue lost_control no_description (GetItemFromQueue "p1" 5) 0%nat;
     EvFire lost_control 0%nat;
     EvFire serving_control 0%nat]
    blank_world.

(** ** Further vocabulary *)

(** The call a stage makes to the controller raises [e]. *)
Definition controller_raises (e : Exn) (ctl : Control) (t : RetryableTask)
    (r : ItemRef) (w : World) : Prop :=
  match body t with
  | BGetItemFromQueue pid => reserve_job ctl pid = Raise e
  | BRelabelIfAborted =>
      exists ident, properties (items w r) !! "ident" = Some ident /\
                    is_aborted ctl ident = Raise e
  | BSetWarcFileSizeInRedis =>
      exists ident p, properties (items w r) !! "ident" = Some ident /\
                      properties (items w r) !! "target_warc_file" = Some p /\
                      set_warc_size ctl ident p = Raise e
  | BMarkItemAsDone x => mark_done ctl (items w r) x = Raise e
  end.

(** The event loop fires the first pending timeout [n] times in a row, the
    controller answering as [ctl] each time. *)
Fixpoint retry_rounds (ctl : Control) (n : nat) (w : World) : World :=
  match n with
  | O => w
  | S n' => exec (EvFire ctl 0%nat) (retry_rounds ctl n' w)
  end.

(** The event loop fires timeouts, one after the other: each entry gives the
    controller as it is at that moment and the position of the timeout. *)
Definition fire_all (fires : list (Control * nat)) (w : World) : World :=
  fold_left (fun w f => exec (EvFire (fst f) (snd f)) w) fires w.

(** A controller that fails for a reason of its own. *)
Definition broken_control : Control :=
  {| reserve_job := fun _ => Raise (OtherError "protocol error");
     is_aborted := fun _ => Raise (OtherError "protocol error");
     set_warc_size := fun _ _ => Raise (OtherError "protocol error");
     mark_done := fun _ _ => Raise (OtherError "protocol error");
     heartbeat := fun _ => Raise (OtherError "protocol error") |}.

(** The controller answers the stage's call, and the stage has nothing to
    change in the item: the job is not aborted, the size was recorded, the
    job was marked done. *)
Definition plain_success (ctl : Control) (t : RetryableTask) (r : ItemRef)
    (w : World) : Prop :=
  match body t with
  | BGetItemFromQueue _ => False
  | BRelabelIfAborted =>
      exists ident a, properties (items w r) !! "ident" = Some ident /\
                      is_aborted ctl ident = Ret a /\ py_truthy a = false
  | BSetWarcFileSizeInRedis =>
      exists ident p, properties (items w r) !! "ident" = Some ident /\
                      properties (items w r) !! "target_warc_file" = Some p /\
                      set_warc_size ctl ident p = Ret tt
  | BMarkItemAsDone x => mark_done ctl (items w r) x = Ret tt
  end.

(** A controller that records a size for one file only. *)
Definition picky_control (path : string) : Control :=
  {| reserve_job := fun _ => Ret (VNone, ∅);
     is_aborted := fun _ => Ret (VBool true);
     set_warc_size := fun _ p =>
       if eq_str p path then Ret tt else Raise (OtherError "no such file");
     mark_done := fun _ _ => Ret tt;
     heartbeat := fun _ => Ret tt |}.

(** Code that leaves the timers alone, and attribute [k] of every item. *)
Definition keeps_attribute (k : string) {A} (m : M A) : Prop :=
  forall w,
    timers (snd (m w)) = timers w /\
    forall r, properties (items (snd (m w)) r) !! k = properties (items w r) !! k.

(** An item that holds a heartbeat handle has a timer behind it, which
    reports for that item and is running. *)
Definition heartbeat_ok (w : World) : Prop :=
  forall r id,
    properties (items w r) !! "heartbeat" = Some (VTimer id) ->
    exists tm, timers w !! id = Some tm /\ tm_item tm = r /\ tm_running tm = true.

(** A world in which item [0] holds a started heartbeat and nothing else. *)
Definition beating_world : World := exec (EvStartHeartbeat 0%nat) blank_world.

(** The world once [PreparePaths] wrote, for data directory [d], working
    directory [dir] and base name [base], its seven path attributes. *)
Definition paths_written (r : ItemRef) (d dir base : string) (w : World) : World :=
  put r "target_info_file" (VStr (d +:+ "/" +:+ base +:+ ".json"))
    (put r "target_warc_file" (VStr (d +:+ "/" +:+ base +:+ ".warc.gz"))
       (put r "cookie_jar" (VStr (dir +:+ "/cookies.txt"))
          (put r "source_info_file" (VStr (dir +:+ "/" +:+ base +:+ ".json"))
             (put r "source_warc_file" (VStr (dir +:+ "/" +:+ base +:+ ".warc.gz"))
                (put r "warc_file_base" (VStr base)
                   (put r "item_dir" (VStr dir) w)))))).

(** The world once the working directory [dir] was made afresh: removed
    first when it was there. *)
Definition directory_reset (fs : Fs) (dir : string) (w : World) : World :=
  record_fs (FsMakedirs (VStr dir))
    (if isdir fs dir then record_fs (FsRmtree (VStr dir)) w else w).

(** The attributes [PreparePaths] writes. *)
Definition path_attributes : list string :=
  ["item_dir"; "warc_file_base"; "source_warc_file"; "source_info_file";
   "cookie_jar"; "target_warc_file"; "target_info_file"].

(** A filesystem on which the working directory is there already. *)
Definition used_fs : Fs := {| isdir := fun _ => true; fs_fault := fun _ => None |}.

(** A filesystem on which nothing can be renamed onto a [.json] target. *)
Definition half_fs : Fs :=
  {| isdir := fun _ => false;
     fs_fault := fun op =>
       match op with
       | FsRename _ (VStr "/data/example-20140307-090500-abc12.json") => Some OSError
       | _ => None
       end |}.

(** A filesystem on which no directory can be made. *)
Definition full_fs : Fs :=
  {| isdir := fun _ => false;
     fs_fault := fun op =>
       match op with
       | FsMakedirs _ => Some OSError
       | _ => None
       end |}.

(** The attributes [SetFetchDepth] writes. *)
Definition depth_attributes : list string := ["recursive"; "level"; "depth"].

(** The attributes [WriteInfo] cannot do without. *)
Definition info_inputs : list string :=
  ["fetch_depth"; "pipeline_id"; "queued_at"; "started_by"; "started_in"; "url"].

(** The values a job descriptor read from JSON text holds at its leaves. *)
Definition is_scalar (v : PyVal) : bool :=
  match v with
  | VNone | VBool _ | VInt _ | VStr _ => true
  | VTimer _ | VDict _ => false
  end.

(** The metadata record of an item, as [WriteInfo] builds it. *)
Definition info_of (aborted fetch_depth pipeline_id queued_at started_by started_in url
                    : PyVal) : PyVal :=
  VDict [("aborted", aborted); ("fetch_depth", fetch_depth);
         ("pipeline_id", pipeline_id); ("queued_at", queued_at);
         ("started_by", started_by); ("started_in", started_in); ("url", url)].

(** [w'] holds every line, completion, start and filesystem call that [w]
    holds, in the same places: histories were extended, not rewritten. *)
Definition grows (w w' : World) : Prop :=
  (forall r, output (items w r) `prefix_of` output (items w' r)) /\
  completed w `prefix_of` completed w' /\
  started w `prefix_of` started w' /\
  fs_trace w `prefix_of` fs_trace w'.

(** Code that only extends the histories. *)
Definition extends_histories {A} (m : M A) : Prop := forall w, grows w (snd (m w)).

(** An item whose start time is a timer object, which JSON cannot show. *)
Definition odd_world : World := put 0%nat "queued_at" (VTimer 0) prepared_world.

(** * Properties *)

(** ** Code that leaves the scheduler and the cancellation flags alone *)

Lemma quiet_refl w : quiet w w.
Proof. repeat split. Qed.

Lemma quiet_trans w1 w2 w3 : quiet w1 w2 -> quiet w2 w3 -> quiet w1 w3.
Proof.
  intros (Ht1 & Hc1 & Hf1) (Ht2 & Hc2 & Hf2). split; [| split].
  - congruence.
  - congruence.
  - intros r. destruct (Hf1 r), (Hf2 r). split; congruence.
Qed.

Lemma quiet_upd_item r f w :
  (forall it, may_be_canceled (f it) = may_be_canceled it) ->
  (forall it, canceled (f it) = canceled it) ->
  quiet w (upd_item r f w).
Proof.
  intros Hm Hc. split; [reflexivity | split; [reflexivity |]].
  intros r'. simpl. destruct (decide (r' = r)); auto.
Qed.

Lemma keeps_ret {A} (a : A) : keeps (ret a).
Proof. intros w. apply quiet_refl. Qed.

Lemma keeps_raise {A} e : keeps (@raise A e).
Proof. intros w. apply quiet_refl. Qed.

Lemma keeps_call {A} (x : Result A) : keeps (call x).
Proof. intros w. apply quiet_refl. Qed.

Lemma keeps_bind {A B} (m : M A) (k : A -> M B) :
  keeps m -> (forall a, keeps (k a)) -> keeps (bind m k).
Proof.
  intros Hm Hk w. unfold bind. specialize (Hm w).
  destruct (m w) as [[a | e] w1]; simpl in *.
  - eapply quiet_trans; [exact Hm | apply Hk].
  - exact Hm.
Qed.

Lemma keeps_read {A} (f : World -> A) : keeps (fun w => (Ret (f w), w)).
Proof. intros w. apply quiet_refl. Qed.

Lemma keeps_getitem r k : keeps (getitem r k).
Proof.
  intros w. unfold getitem. destruct (properties (items w r) !! k); apply quiet_refl.
Qed.

Lemma keeps_setitem r k v : keeps (setitem r k v).
Proof. intros w. apply quiet_upd_item; reflexivity. Qed.

Lemma keeps_contains r k : keeps (contains r k).
Proof. intros w. apply quiet_refl. Qed.

Lemma keeps_delitem r k : keeps (delitem r k).
Proof.
  intros w. unfold delitem. destruct (properties (items w r) !! k).
  - apply quiet_upd_item; reflexivity.
  - apply quiet_refl.
Qed.

Lemma keeps_log_output r s : keeps (log_output r s).
Proof. intros w. apply quiet_upd_item; reflexivity. Qed.

Lemma keeps_fmt v : keeps (fmt v).
Proof. unfold fmt. destruct (py_str v); [apply keeps_ret | apply keeps_raise]. Qed.

Lemma keeps_fmt_key r k : keeps (fmt_key r k).
Proof. apply keeps_bind; [apply keeps_getitem | intros; apply keeps_fmt]. Qed.

Lemma keeps_start_item t r : keeps (start_item t r).
Proof. intros w. repeat split. Qed.

Lemma keeps_fs_do fs op : keeps (fs_do fs op).
Proof.
  intros w. unfold fs_do. destruct (fs_fault fs op).
  - apply quiet_refl.
  - repeat split.
Qed.

Lemma keeps_new_periodic_callback r p : keeps (new_periodic_callback r p).
Proof. intros w. repeat split. Qed.

Lemma keeps_timer_switch b v : keeps (timer_switch b v).
Proof.
  destruct v; try apply keeps_raise.
  intros w. repeat split.
Qed.

Lemma keeps_slice v : keeps (slice_0_5 v).
Proof. destruct v; try apply keeps_raise. apply keeps_ret. Qed.

Lemma keeps_json_dumps v : keeps (json_dumps v).
Proof. apply keeps_call. Qed.

Create HintDb keeps.
#[local] Hint Resolve keeps_ret keeps_raise keeps_call keeps_getitem keeps_setitem
  keeps_contains keeps_delitem keeps_log_output keeps_fmt keeps_fmt_key
  keeps_start_item keeps_fs_do keeps_new_periodic_callback
  keeps_timer_switch keeps_slice keeps_json_dumps : keeps.

(** Walks through a block of stage code, one statement at a time. *)
Ltac keeps_tac :=
  repeat first
    [ apply keeps_bind; [| intros ]
    | match goal with
      | |- keeps (if ?b then _ else _) => destruct b
      | |- keeps (fun w => (Ret _, w)) => apply keeps_read
      end
    | solve [ auto with keeps ] ].

Lemma keeps_set_target_paths r : keeps (set_target_paths r).
Proof. unfold set_target_paths. keeps_tac. Qed.

Lemma keeps_StartHeartbeat r : keeps (StartHeartbeat_process r).
Proof. unfold StartHeartbeat_process. keeps_tac. Qed.

Lemma keeps_send_heartbeat ctl r : keeps (send_heartbeat ctl r).
Proof. unfold send_heartbeat. keeps_tac. Qed.

Lemma keeps_StopHeartbeat r : keeps (StopHeartbeat_process r).
Proof. unfold StopHeartbeat_process. keeps_tac. Qed.

Lemma keeps_SetFetchDepth r : keeps (SetFetchDepth_process r).
Proof. unfold SetFetchDepth_process. keeps_tac. Qed.

Lemma keeps_PreparePaths fs now r : keeps (PreparePaths_process fs now r).
Proof.
  unfold PreparePaths_process. pose proof (keeps_set_target_paths r). keeps_tac.
Qed.

Lemma keeps_MoveFiles fs r : keeps (MoveFiles_process fs r).
Proof. unfold MoveFiles_process. keeps_tac. Qed.

Lemma keeps_WriteInfo fs r : keeps (WriteInfo_process fs r).
Proof. unfold WriteInfo_process. keeps_tac. Qed.

Lemma keeps_tick ctl id : keeps (tick ctl id).
Proof.
  intros w. unfold tick. destruct (timers w !! id) as [tm |]; [| apply quiet_refl].
  destruct (tm_running tm); [apply keeps_send_heartbeat | apply quiet_refl].
Qed.

(** ** Code that ends by completing the item *)

Lemma quiet_completing nm r w w1 w2 :
  quiet w w1 -> completing nm r w1 w2 -> completing nm r w w2.
Proof.
  intros (Ht1 & Hc1 & Hf1) (Ht2 & Hc2 & Hf2). split; [| split].
  - congruence.
  - congruence.
  - intros r'. destruct (Hf1 r'), (Hf2 r'). split; congruence.
Qed.

Lemma completes_complete_item nm r : completes nm r (complete_item nm r).
Proof. intros w. simpl. repeat split. Qed.

Lemma completes_bind {A B} nm r (m : M A) (k : A -> M B) :
  keeps m -> (forall a, completes nm r (k a)) -> completes nm r (bind m k).
Proof.
  intros Hm Hk w. unfold bind. specialize (Hm w).
  destruct (m w) as [[a | e] w1]; simpl in *.
  - specialize (Hk a w1). destruct (fst (k a w1)).
    + eapply quiet_completing; eassumption.
    + eapply quiet_trans; eassumption.
  - exact Hm.
Qed.

Ltac completes_tac :=
  repeat (apply completes_bind; [ try solve [ keeps_tac ] | intros ]);
  try apply completes_complete_item.

(** ** How a run of [process] ends *)

Lemma schedule_retry_step t r w : retry_step t r w (snd (schedule_retry t r w)).
Proof.
  unfold schedule_retry, bind, add_timeout, retry_step; simpl.
  repeat split.
  - destruct (decide (r = r)); [reflexivity | contradiction].
  - intros r' Hne. destruct (decide (r' = r)); [contradiction | reflexivity].
  - intros r'. destruct (decide (r' = r)); reflexivity.
Qed.

Lemma quiet_retry_step t r w w1 w2 :
  quiet w w1 -> retry_step t r w1 w2 -> retry_step t r w w2.
Proof.
  intros (Ht & Hc & Hf) (Ht' & Hc' & Hm & Ho & Hcan). repeat split.
  - congruence.
  - congruence.
  - exact Hm.
  - intros r' Hne. rewrite (Ho r' Hne). apply Hf.
  - intros r'. rewrite Hcan. apply Hf.
Qed.

Lemma on_connection_error_step t r w :
  fst (on_connection_error t r w) = Ret tt /\
  retry_step t r w (snd (on_connection_error t r w)).
Proof.
  split; [reflexivity |].
  change (on_connection_error t r w)
    with (schedule_retry t r (snd (notify_connection_error t r w))).
  eapply quiet_retry_step; [| apply schedule_retry_step].
  apply (keeps_log_output r _ w).
Qed.

Lemma try_call_bind {A B} (x : Result A) (k : A -> M B) (h : M B) w :
  try_except_ConnectionError (bind (call x) k) h w =
  match x with
  | Ret a => try_except_ConnectionError (k a) h w
  | Raise ConnectionError => h w
  | Raise e => (Raise e, w)
  end.
Proof. destruct x as [a | e]; [reflexivity | destruct e; reflexivity]. Qed.

Lemma try_schedule_retry t r (h : M unit) w :
  try_except_ConnectionError (schedule_retry t r) h w = schedule_retry t r w.
Proof. reflexivity. Qed.

Lemma try_completes (m : M unit) t r w :
  completes (name t) r m ->
  process_ending t r
    (fst (try_except_ConnectionError m (on_connection_error t r) w)) w
    (snd (try_except_ConnectionError m (on_connection_error t r) w)).
Proof.
  intros Hm. unfold try_except_ConnectionError.
  specialize (Hm w). destruct (m w) as [[a | e] w1]; simpl in *.
  - left. exact Hm.
  - destruct e; try exact Hm.
    destruct (on_connection_error_step t r w1) as [Hr Hs].
    rewrite Hr. right. eapply quiet_retry_step; eassumption.
Qed.

(** Every run of [process] ends in one of three ways: it raises, having
    scheduled and completed nothing; it returns having completed the item,
    with nothing scheduled; or it returns having scheduled exactly one
    retry, with nothing completed. *)
Lemma process_ends ctl t r w :
  process_ending t r (fst (process ctl t r w)) w (snd (process ctl t r w)).
Proof.
  unfold process. destruct (body t) as [pid | | | e].
  - unfold GetItemFromQueue_process. rewrite try_call_bind.
    destruct (reserve_job ctl pid) as [[ident jd] | e]; simpl.
    + destruct (is_none ident).
      * rewrite try_schedule_retry. right. apply schedule_retry_step.
      * apply try_completes. completes_tac.
    + destruct (on_connection_error_step t r w) as [Hr Hs].
      destruct e; try apply quiet_refl.
      rewrite Hr. right. exact Hs.
  - apply try_completes. unfold RelabelIfAborted_process.
    pose proof (keeps_set_target_paths r). completes_tac.
  - apply try_completes. completes_tac.
  - apply try_completes. completes_tac.
Qed.

Lemma process_sched ctl t r w :
  quiet_flags w (snd (process ctl t r w)) \/ retry_step t r w (snd (process ctl t r w)).
Proof.
  pose proof (process_ends ctl t r w) as H. unfold process_ending in H.
  destruct (fst (process ctl t r w)).
  - destruct H as [(Ht & _ & Hf) | H]; [left; split; assumption | right; exact H].
  - destruct H as (Ht & _ & Hf). left; split; assumption.
Qed.

(** ** The cancellation window *)

Lemma cancelable_stage t :
  pipeline_stage t ->
  cancelable t = true <-> exists pid, body t = BGetItemFromQueue pid.
Proof.
  intros Hs. destruct Hs; simpl; split;
    try discriminate; try (intros [pid0 H]; discriminate); eauto.
Qed.

Lemma pending_mono (w w' : World) r :
  (forall to, to ∈ timeouts w -> to ∈ timeouts w') ->
  pending_reservation w r -> pending_reservation w' r.
Proof.
  intros Hsub (to & pid & Hin & Hr & Hb). exists to, pid. auto.
Qed.

Lemma quiet_flags_inv w w' :
  quiet_flags w w' -> stages_only w /\ window w -> stages_only w' /\ window w'.
Proof.
  intros [Ht Hf] [Hs Hw]. split.
  - intros to. rewrite Ht. apply Hs.
  - intros r Hm. destruct (Hf r) as [Hm' Hc']. rewrite Hm' in Hm.
    destruct (Hw r Hm) as [Hp | Hc].
    + left. eapply pending_mono; [| exact Hp]. intros to. by rewrite Ht.
    + right. congruence.
Qed.

Lemma quiet_is_quiet_flags w w' : quiet w w' -> quiet_flags w w'.
Proof. intros (Ht & _ & Hf). split; assumption. Qed.

Lemma retry_step_inv t r w w' :
  pipeline_stage t -> retry_step t r w w' ->
  stages_only w /\ window w -> stages_only w' /\ window w'.
Proof.
  intros Hst (Ht & _ & Hm & Ho & Hc) [Hs Hw]. split.
  - intros to. rewrite Ht, elem_of_app, list_elem_of_singleton.
    intros [Hin | ->]; [apply Hs; exact Hin | exact Hst].
  - intros r0 Hr0. destruct (decide (r0 = r)) as [-> | Hne].
    + left. rewrite Hm in Hr0.
      apply (cancelable_stage t Hst) in Hr0 as [pid Hb].
      exists (mkTimeout (retry_delay t) t r), pid. rewrite Ht.
      split; [| split; [reflexivity | exact Hb]].
      apply elem_of_app. right. by apply list_elem_of_singleton.
    + rewrite (Ho r0 Hne) in Hr0. destruct (Hw r0 Hr0) as [Hp | Hcan].
      * left. eapply pending_mono; [| exact Hp].
        intros to Hin. rewrite Ht. apply elem_of_app. by left.
      * right. by rewrite Hc.
Qed.

Lemma process_inv ctl t r w :
  pipeline_stage t ->
  stages_only w /\ window w ->
  stages_only (snd (process ctl t r w)) /\ window (snd (process ctl t r w)).
Proof.
  intros Hst Hinv. destruct (process_sched ctl t r w) as [Hq | Hr].
  - eapply quiet_flags_inv; eassumption.
  - eapply retry_step_inv; eassumption.
Qed.

Lemma enqueue_unfold ctl descr t r w :
  enqueue ctl descr t r w =
  process ctl t r
    (snd (log_output r ("Starting " +:+ task_str t +:+ " for " +:+ descr (items w r))
            (snd (start_item t r w)))).
Proof. reflexivity. Qed.

Lemma enqueue_prefix_quiet descr t r w :
  quiet w (snd (log_output r ("Starting " +:+ task_str t +:+ " for " +:+ descr (items w r))
                  (snd (start_item t r w)))).
Proof.
  eapply quiet_trans; [apply (keeps_start_item t r w) | apply keeps_log_output].
Qed.

Lemma elem_of_drop_timeout i to (w : World) to' :
  timeouts w !! i = Some to ->
  to' ∈ timeouts w <-> to' = to \/ to' ∈ timeouts (drop_timeout i w).
Proof.
  intros Hi. simpl. rewrite <- (take_drop_middle _ _ _ Hi) at 1.
  rewrite !elem_of_app, elem_of_cons. tauto.
Qed.

Lemma retry_unfold ctl t r w :
  retry ctl t r w =
  if canceled (items w r) then (Ret tt, w)
  else process ctl t r (upd_item r (set_may_be_canceled false) w).
Proof. unfold retry, bind. simpl. destruct (canceled (items w r)); reflexivity. Qed.

Lemma fire_inv ctl i w :
  stages_only w /\ window w ->
  stages_only (snd (fire ctl i w)) /\ window (snd (fire ctl i w)).
Proof.
  intros [Hs Hw]. unfold fire.
  destruct (timeouts w !! i) as [to |] eqn:Hi; [| split; assumption].
  assert (Hs1 : stages_only (drop_timeout i w)).
  { intros to' Hin. apply Hs. apply (elem_of_drop_timeout i to w to' Hi). by right. }
  assert (Hto : pipeline_stage (to_task to)).
  { apply Hs. apply (elem_of_drop_timeout i to w to Hi). by left. }
  rewrite retry_unfold.
  change (items (drop_timeout i w)) with (items w).
  destruct (canceled (items w (to_item to))) eqn:Hc; simpl.
  - split; [exact Hs1 |]. intros r0 Hm.
    destruct (Hw r0 Hm) as [(to' & pid & Hin & Hr & Hb) | Hcan]; [| by right].
    apply (elem_of_drop_timeout i to w to' Hi) in Hin as [-> | Hin].
    + right. by rewrite <- Hr.
    + left. exists to', pid. auto.
  - apply process_inv; [exact Hto |]. split; [exact Hs1 |].
    intros r0 Hm. simpl in Hm. simpl.
    destruct (decide (r0 = to_item to)) as [-> | Hne]; [discriminate |].
    destruct (Hw r0 Hm) as [(to' & pid & Hin & Hr & Hb) | Hcan]; [| by right].
    apply (elem_of_drop_timeout i to w to' Hi) in Hin as [-> | Hin].
    + congruence.
    + left. exists to', pid. auto.
Qed.

Lemma cancel_inv r w :
  stages_only w /\ window w ->
  stages_only (snd (cancel r w)) /\ window (snd (cancel r w)).
Proof.
  intros [Hs Hw]. unfold cancel.
  destruct (may_be_canceled (items w r)) eqn:Hm; [| split; assumption].
  split; [exact Hs |].
  intros r0 Hr0. simpl in *.
  destruct (decide (r0 = r)) as [-> | Hne]; [by right |].
  destruct (Hw r0 Hr0) as [Hp | Hc]; [left | right]; assumption.
Qed.

Lemma keeps_inv {A} (m : M A) w :
  keeps m -> stages_only w /\ window w ->
  stages_only (snd (m w)) /\ window (snd (m w)).
Proof.
  intros Hk Hinv. eapply quiet_flags_inv; [| exact Hinv].
  apply quiet_is_quiet_flags, Hk.
Qed.

Lemma exec_inv ev w :
  event_ok ev -> stages_only w /\ window w ->
  stages_only (exec ev w) /\ window (exec ev w).
Proof.
  intros Hok Hinv. unfold exec. destruct ev; cbn [run event_ok] in *.
  - rewrite enqueue_unfold. apply process_inv; [exact Hok |].
    eapply quiet_flags_inv; [| exact Hinv].
    apply quiet_is_quiet_flags, enqueue_prefix_quiet.
  - by apply fire_inv.
  - by apply cancel_inv.
  - apply keeps_inv; [apply keeps_StartHeartbeat | exact Hinv].
  - apply keeps_inv; [apply keeps_tick | exact Hinv].
  - apply keeps_inv; [apply keeps_SetFetchDepth | exact Hinv].
  - apply keeps_inv; [apply keeps_PreparePaths | exact Hinv].
  - apply keeps_inv; [apply keeps_WriteInfo | exact Hinv].
  - apply keeps_inv; [apply keeps_MoveFiles | exact Hinv].
  - apply keeps_inv; [apply keeps_StopHeartbeat | exact Hinv].
Qed.

Lemma reachable_inv w : reachable w -> stages_only w /\ window w.
Proof.
  induction 1 as [w [Ht Hf] | ev w Hr IH Hok].
  - split.
    + intros to. rewrite Ht. intros Hin. by apply elem_of_nil in Hin.
    + intros r Hm. destruct (Hf r) as [Hm' _]. congruence.
  - by apply exec_inv.
Qed.

Lemma process_flips ctl t r w r0 :
  pipeline_stage t ->
  may_be_canceled (items w r0) = false ->
  may_be_canceled (items (snd (process ctl t r w)) r0) = true ->
  r0 = r /\ (exists pid, body t = BGetItemFromQueue pid) /\
  timeouts (snd (process ctl t r w)) =
    (timeouts w ++ [mkTimeout (retry_delay t) t r])%list.
Proof.
  intros Hst H0 H1. destruct (process_sched ctl t r w) as [[_ Hf] | (Ht & _ & Hm & Ho & _)].
  - destruct (Hf r0) as [Hm _]. congruence.
  - destruct (decide (r0 = r)) as [-> | Hne].
    + split; [reflexivity |]. split; [| exact Ht].
      apply (cancelable_stage t Hst). congruence.
    + rewrite (Ho r0 Hne) in H1. congruence.
Qed.

Lemma exec_flips ev w r :
  stages_only w -> event_ok ev ->
  may_be_canceled (items w r) = false ->
  may_be_canceled (items (exec ev w) r) = true ->
  runs_reservation ev w r /\ reservation_retry_registered (exec ev w) r.
Proof.
  intros Hs Hok H0 H1. unfold exec in *.
  assert (Hkeep : forall (m : M unit),
             keeps m -> may_be_canceled (items (snd (m w)) r) = true -> False).
  { intros m Hk Hm. destruct (Hk w) as (_ & _ & Hf). destruct (Hf r). congruence. }
  destruct ev; cbn [run event_ok runs_reservation] in *.
  - rewrite enqueue_unfold in *.
    set (w1 := snd (log_output r0 _ (snd (start_item t r0 w)))) in *.
    assert (Hq : quiet w w1) by apply enqueue_prefix_quiet.
    destruct Hq as (Hqt & _ & Hqf).
    assert (H0' : may_be_canceled (items w1 r) = false).
    { destruct (Hqf r). congruence. }
    destruct (process_flips ctl t r0 w1 r Hok H0' H1) as (-> & [pid Hb] & Ht).
    split; [split; [reflexivity | eauto] |].
    exists (timeouts w1), (mkTimeout (retry_delay t) t r0), pid. auto.
  - unfold fire in *. destruct (timeouts w !! i) as [to |] eqn:Hi; [| simpl in H1; congruence].
    rewrite retry_unfold in *.
    change (items (drop_timeout i w)) with (items w) in *.
    destruct (canceled (items w (to_item to))) eqn:Hc; [simpl in H1; congruence |].
    set (w2 := upd_item (to_item to) (set_may_be_canceled false) (drop_timeout i w)) in *.
    assert (Hto : pipeline_stage (to_task to)).
    { apply Hs. apply (elem_of_drop_timeout i to w to Hi). by left. }
    assert (H0' : may_be_canceled (items w2 r) = false).
    { subst w2. simpl. destruct (decide (r = to_item to)); [reflexivity | exact H0]. }
    destruct (process_flips ctl (to_task to) (to_item to) w2 r Hto H0' H1)
      as (-> & [pid Hb] & Ht).
    split; [exists to, pid; auto |].
    exists (timeouts w2), (mkTimeout (retry_delay (to_task to)) (to_task to) (to_item to)), pid.
    auto.
  - unfold cancel in H1. destruct (may_be_canceled (items w r0)) eqn:Hm; simpl in H1.
    + destruct (decide (r = r0)); simpl in H1; congruence.
    + congruence.
  - exfalso. eapply Hkeep; [apply keeps_StartHeartbeat | exact H1].
  - exfalso. eapply Hkeep; [apply keeps_tick | exact H1].
  - exfalso. eapply Hkeep; [apply keeps_SetFetchDepth | exact H1].
  - exfalso. eapply Hkeep; [apply keeps_PreparePaths | exact H1].
  - exfalso. eapply Hkeep; [apply keeps_WriteInfo | exact H1].
  - exfalso. eapply Hkeep; [apply keeps_MoveFiles | exact H1].
  - exfalso. eapply Hkeep; [apply keeps_StopHeartbeat | exact H1].
Qed.

(** ** The retry path *)

Lemma schedule_retry_outcome t r w :
  exists w', schedule_retry t r w = (Ret tt, w') /\ retry_outcome t r [] w w'.
Proof.
  eexists. split; [reflexivity |].
  unfold retry_outcome; simpl. repeat split.
  - destruct (decide (r = r)); [| contradiction].
    unfold set_may_be_canceled; simpl. by rewrite app_nil_r.
  - intros r' Hne. destruct (decide (r' = r)); [contradiction | reflexivity].
Qed.

Lemma on_connection_error_outcome t r w :
  exists w', on_connection_error t r w = (Ret tt, w') /\
             retry_outcome t r [retry_notice connection_reason t] w w'.
Proof.
  eexists. split; [reflexivity |].
  unfold retry_outcome; simpl. repeat split.
  - destruct (decide (r = r)); [reflexivity | contradiction].
  - intros r' Hne. destruct (decide (r' = r)); [contradiction | reflexivity].
Qed.

Lemma getitem_some r k v w :
  properties (items w r) !! k = Some v -> getitem r k w = (Ret v, w).
Proof. intros H. unfold getitem. by rewrite H. Qed.

Lemma getitem_none r k w :
  properties (items w r) !! k = None -> getitem r k w = (Raise (KeyError k), w).
Proof. intros H. unfold getitem. by rewrite H. Qed.

Lemma connection_lost_process ctl t r w :
  connection_lost ctl t r w -> process ctl t r w = on_connection_error t r w.
Proof.
  unfold connection_lost, process. destruct (body t) as [pid | | | e].
  - intros H. unfold GetItemFromQueue_process. rewrite try_call_bind. by rewrite H.
  - intros (ident & Hi & H).
    unfold RelabelIfAborted_process, try_except_ConnectionError, bind.
    rewrite (getitem_some _ _ _ _ Hi). unfold call. by rewrite H.
  - intros (ident & p & Hi & Hp & H).
    unfold SetWarcFileSizeInRedis_process, try_except_ConnectionError, bind.
    rewrite (getitem_some _ _ _ _ Hi), (getitem_some _ _ _ _ Hp).
    unfold call. by rewrite H.
  - intros H.
    unfold MarkItemAsDone_process, try_except_ConnectionError, bind, call.
    by rewrite H.
Qed.

(** C1.  When the controller call of a retryable stage raises the
    connection-lost error, [process] returns normally without calling
    [complete_item]; the item's log gains exactly the retry notice, which
    names the reason, the stage and the delay; [may_be_canceled] takes the
    stage's [cancelable]; and exactly one timeout is registered, which
    re-invokes the same stage on the same item after [retry_delay]
    seconds. *)
Theorem connection_lost_schedules_one_retry ctl t r w :
  connection_lost ctl t r w ->
  exists w',
    process ctl t r w = (Ret tt, w') /\
    completed w' = completed w /\
    output (items w' r) =
      (output (items w r) ++
       ["Lost connection to ArchiveBot controller. Retrying " +:+ name t +:+
        " in " +:+ pretty (retry_delay t) +:+ " seconds."])%list /\
    may_be_canceled (items w' r) = cancelable t /\
    timeouts w' = (timeouts w ++ [mkTimeout (retry_delay t) t r])%list.
Proof.
  intros H. rewrite (connection_lost_process _ _ _ _ H).
  destruct (on_connection_error_outcome t r w)
    as (w' & Hrun & Hi & _ & Hto & _ & _ & Hc & _).
  exists w'. rewrite Hi. simpl. repeat split; assumption.
Qed.

Lemma connection_lost_schedules_one_retry_witness :
  exists w',
    process lost_control (MarkItemAsDone 3600) 0%nat blank_world = (Ret tt, w') /\
    completed w' = [] /\
    output (items w' 0%nat) =
      ["Lost connection to ArchiveBot controller. Retrying MarkItemAsDone in 5 seconds."] /\
    may_be_canceled (items w' 0%nat) = false /\
    timeouts w' = [mkTimeout 5 (MarkItemAsDone 3600) 0%nat].
Proof.
  apply (connection_lost_schedules_one_retry
           lost_control (MarkItemAsDone 3600) 0%nat blank_world).
  reflexivity.
Defined.

(** A run of [process] that returns has left its mark: it completed the item
    or registered a timeout.  A world with neither is one in which [process]
    did not run. *)
Lemma process_leaves_trace ctl t r w :
  fst (process ctl t r w) = Ret tt ->
  let w' := snd (process ctl t r w) in
  (length (timeouts w') + length (completed w') =
   S (length (timeouts w) + length (completed w)))%nat.
Proof.
  intros Hret. pose proof (process_ends ctl t r w) as H.
  rewrite Hret in H. simpl in H.
  destruct H as [(Ht & Hc & _) | (Ht & Hc & _)]; simpl; rewrite Ht, Hc;
    rewrite length_app; simpl; lia.
Qed.

(** C2.  When the event loop fires a scheduled retry: if the item is
    canceled at that moment the world is left as it was but for the timeout
    taken off the queue, so [process] did not run and nothing further is
    scheduled; otherwise [may_be_canceled] is reset to false and [process]
    runs again, for the same stage on the same item. *)
Theorem fired_retry_respects_cancellation ctl i to w :
  timeouts w !! i = Some to ->
  (canceled (items w (to_item to)) = true ->
   fire ctl i w = (Ret tt, drop_timeout i w)) /\
  (canceled (items w (to_item to)) = false ->
   let w1 := upd_item (to_item to) (set_may_be_canceled false) (drop_timeout i w) in
   may_be_canceled (items w1 (to_item to)) = false /\
   fire ctl i w = process ctl (to_task to) (to_item to) w1).
Proof.
  intros Hi. unfold fire. rewrite Hi, retry_unfold.
  change (items (drop_timeout i w)) with (items w).
  split; intros Hc; rewrite Hc.
  - reflexivity.
  - split; [| reflexivity].
    simpl. destruct (decide (to_item to = to_item to)); [reflexivity | contradiction].
Qed.

Lemma fired_retry_respects_cancellation_witness :
  fire idle_control 0 canceled_world = (Ret tt, drop_timeout 0 canceled_world).
Proof.
  apply (fired_retry_respects_cancellation idle_control 0%nat
           (mkTimeout 5 (GetItemFromQueue "p1" 5) 0%nat) canceled_world).
  - reflexivity.
  - reflexivity.
Defined.

Lemma reachable_run_all evs w :
  reachable w -> Forall event_ok evs -> reachable (run_all evs w).
Proof.
  intros Hr Hok. revert w Hr.
  induction Hok as [| ev evs Hev _ IH]; intros w Hr; simpl.
  - exact Hr.
  - apply IH. by apply reach_step.
Qed.

Lemma initial_blank_world : initial blank_world.
Proof. split; [reflexivity | intros r; split; reflexivity]. Qed.

Lemma reachable_dropped_world : reachable dropped_world.
Proof.
  apply (reachable_run_all
           [EvEnqueue idle_control no_description (GetItemFromQueue "p1" 5) 0%nat;
            EvCancel 0%nat; EvFire idle_control 0%nat] blank_world).
  - apply reach_init, initial_blank_world.
  - repeat constructor.
Qed.

(** C3, as the specification states its last clause: [may_be_canceled] would
    be false whenever no reservation retry is pending.  It is not: an item
    canceled while it waited keeps the flag after its retry has fired and
    been dropped. *)
Lemma may_be_canceled_outlives_dropped_retry :
  reachable dropped_world /\
  may_be_canceled (items dropped_world 0%nat) = true /\
  ~ pending_reservation dropped_world 0%nat.
Proof.
  split; [apply reachable_dropped_world |]. split; [reflexivity |].
  intros (to & pid & Hin & _).
  change (timeouts dropped_world) with (@nil Timeout) in Hin.
  by apply elem_of_nil in Hin.
Qed.

(** C3, amended.  In every world the pipeline can reach and for every item:
    [may_be_canceled] is set only while a retry of the reservation stage is
    pending for the item or once the item has been canceled; an event that
    turns the flag on runs the reservation stage on that item and leaves a
    retry of it registered; among the stages of the pipeline,
    [GetItemFromQueue] alone is cancelable; and scheduling a retry of any
    other stage leaves the flag off. *)
Theorem may_be_canceled_window w r :
  reachable w ->
  (may_be_canceled (items w r) = true ->
   pending_reservation w r \/ canceled (items w r) = true) /\
  (forall ev,
     event_ok ev ->
     may_be_canceled (items w r) = false ->
     may_be_canceled (items (exec ev w) r) = true ->
     runs_reservation ev w r /\ reservation_retry_registered (exec ev w) r) /\
  (forall t,
     pipeline_stage t ->
     (cancelable t = true <-> exists pid, body t = BGetItemFromQueue pid)) /\
  (forall t,
     pipeline_stage t ->
     (forall pid, body t <> BGetItemFromQueue pid) ->
     may_be_canceled (items (snd (schedule_retry t r w)) r) = false).
Proof.
  intros Hr. destruct (reachable_inv w Hr) as [Hs Hw].
  split; [apply Hw |]. split; [| split].
  - intros ev Hok H0 H1. by apply exec_flips.
  - apply cancelable_stage.
  - intros t Hst Hb. destruct (schedule_retry_step t r w) as (_ & _ & Hm & _).
    rewrite Hm. destruct (cancelable t) eqn:Hc; [| reflexivity].
    apply (cancelable_stage t Hst) in Hc as [pid Hpid]. by destruct (Hb pid).
Qed.

Lemma may_be_canceled_window_witness :
  pending_reservation dropped_world 0%nat \/
  canceled (items dropped_world 0%nat) = true.
Proof.
  apply (may_be_canceled_window dropped_world 0%nat reachable_dropped_world).
  reflexivity.
Defined.

(** ** Running stage code one statement at a time *)

Lemma bind_run {A B} (m : M A) (k : A -> M B) w a w1 R :
  m w = (Ret a, w1) -> k a w1 = R -> bind m k w = R.
Proof. intros Hm Hk. unfold bind. by rewrite Hm. Qed.

Lemma try_run {A B} (m : M A) (k : A -> M B) (h : M B) w a w1 R :
  m w = (Ret a, w1) ->
  try_except_ConnectionError (k a) h w1 = R ->
  try_except_ConnectionError (bind m k) h w = R.
Proof. intros Hm Hk. unfold try_except_ConnectionError, bind in *. by rewrite Hm. Qed.

Lemma try_complete_item nm r (h : M unit) w :
  try_except_ConnectionError (complete_item nm r) h w = (Ret tt, mark_completed nm r w).
Proof. reflexivity. Qed.

Lemma call_run {A} (x : Result A) a w : x = Ret a -> call x w = (Ret a, w).
Proof. by intros ->. Qed.

Lemma fmt_run v s w : py_str v = Some s -> fmt v w = (Ret s, w).
Proof. intros H. unfold fmt. by rewrite H. Qed.

Lemma fmt_key_run r k v s w :
  properties (items w r) !! k = Some v -> py_str v = Some s ->
  fmt_key r k w = (Ret s, w).
Proof.
  intros Hk Hs. unfold fmt_key.
  eapply bind_run; [by apply getitem_some | by apply fmt_run].
Qed.

Lemma contains_some r k v w :
  properties (items w r) !! k = Some v -> contains r k w = (Ret true, w).
Proof.
  intros H. unfold contains. rewrite H.
  by rewrite bool_decide_eq_true_2.
Qed.

Lemma contains_none r k w :
  properties (items w r) !! k = None -> contains r k w = (Ret false, w).
Proof.
  intros H. unfold contains. rewrite H.
  rewrite bool_decide_eq_false_2; [reflexivity |]. by intros [v Hv].
Qed.

Lemma fs_do_run fs op w :
  fs_fault fs op = None -> fs_do fs op w = (Ret tt, record_fs op w).
Proof. intros H. unfold fs_do. by rewrite H. Qed.

Lemma items_put_same r k v w :
  items (put r k v w) r = set_properties (<[k:=v]> (properties (items w r))) (items w r).
Proof. unfold put; simpl. destruct (decide (r = r)); [reflexivity | contradiction]. Qed.

Lemma props_put r k v w :
  properties (items (put r k v w) r) = <[k:=v]> (properties (items w r)).
Proof. by rewrite items_put_same. Qed.

Lemma items_note_same r s w :
  items (note r s w) r = set_output (output (items w r) ++ [s]) (items w r).
Proof. unfold note; simpl. destruct (decide (r = r)); [reflexivity | contradiction]. Qed.

Lemma props_note r s w : properties (items (note r s w) r) = properties (items w r).
Proof. by rewrite items_note_same. Qed.

Lemma items_unset_same r k w :
  items (unset r k w) r = set_properties (delete k (properties (items w r))) (items w r).
Proof. unfold unset; simpl. destruct (decide (r = r)); [reflexivity | contradiction]. Qed.

Lemma items_mark_completed nm r w : items (mark_completed nm r w) = items w.
Proof. reflexivity. Qed.

Lemma items_mark_started nm r w : items (mark_started nm r w) = items w.
Proof. reflexivity. Qed.

Lemma items_register_timeout to w : items (register_timeout to w) = items w.
Proof. reflexivity. Qed.

Lemma items_record_fs op w : items (record_fs op w) = items w.
Proof. reflexivity. Qed.

Lemma items_switch b id w : items (switch b id w) = items w.
Proof. reflexivity. Qed.

Lemma props_unset r k w :
  properties (items (unset r k w) r) = delete k (properties (items w r)).
Proof. by rewrite items_unset_same. Qed.

Lemma output_put r k v w : output (items (put r k v w) r) = output (items w r).
Proof. by rewrite items_put_same. Qed.

Lemma output_note r s w :
  output (items (note r s w) r) = (output (items w r) ++ [s])%list.
Proof. by rewrite items_note_same. Qed.

Lemma output_unset r k w : output (items (unset r k w) r) = output (items w r).
Proof. by rewrite items_unset_same. Qed.

Create Rewrite HintDb world.
#[local] Hint Rewrite props_put props_note props_unset
  output_put output_note output_unset items_mark_completed
  items_mark_started items_register_timeout items_record_fs items_switch : world.

(** Reduces the scheduler and collaborator fields of a world built by a run
    of stage code. *)
Ltac fields :=
  cbn [completed timeouts fs_trace timers started mark_completed mark_started
       register_timeout record_fs switch put note unset upd_item].

(** Reads an attribute off a world built by a run of stage code. *)
Ltac lookup :=
  autorewrite with world;
  repeat (rewrite lookup_insert_ne by done);
  first [ apply lookup_insert_eq | eassumption ].

(** Proves that a statement returns, and with what. *)
Ltac fact :=
  lazymatch goal with
  | |- getitem _ _ _ = _ => apply getitem_some; lookup
  | |- fmt_key _ _ _ = _ =>
      eapply fmt_key_run; [lookup | first [eassumption | reflexivity]]
  | |- fmt _ _ = _ => eapply fmt_run; first [eassumption | reflexivity]
  | |- call _ _ = _ => eapply call_run; eassumption
  | |- fs_do _ _ _ = _ => apply fs_do_run; assumption
  | |- bind _ _ _ = _ => eapply bind_run; [fact | cbv beta iota; fact]
  | |- _ => reflexivity
  end.

(** Runs the next statement of a block. *)
Ltac step :=
  first [ eapply try_run; [fact | cbv beta iota zeta]
        | eapply bind_run; [fact | cbv beta iota zeta] ].

(** ** The reservation stage *)

(** C4, as the specification states it: every job attribute would come from
    the descriptor.  Two do not: for the job [abc123], whose descriptor
    holds neither key, the item gets its [pipeline_id] from the stage and
    its [ident] from the identifier that came with the descriptor. *)
Lemma reservation_not_all_from_descriptor :
  reserve_job busy_control "p1" = Ret (VStr "abc123", example_job) /\
  fst (process busy_control (GetItemFromQueue "p1" 5) 0%nat blank_world) = Ret tt /\
  ~ populated_from example_job (items reserved_world 0%nat).
Proof.
  split; [reflexivity |]. split; [reflexivity |].
  intros H. specialize (H "pipeline_id").
  assert (Hin : "pipeline_id" ∈ job_attributes).
  { unfold job_attributes. set_solver. }
  specialize (H Hin). vm_compute in H. discriminate H.
Qed.

(** C4, amended.  Whenever [reserve_job] answers: with no identifier,
    [process] schedules exactly one retry and does not complete the item;
    with an identifier, [process] fills [fetch_depth], [log_key],
    [queued_at], [slug], [started_by], [started_in] and [url] from the
    descriptor, [ident] from the identifier and [pipeline_id] from the
    stage's own pipeline identifier, logs the receipt and completes the
    item. *)
Theorem reservation_outcomes ctl pid t r w ident job_data :
  body t = BGetItemFromQueue pid ->
  reserve_job ctl pid = Ret (ident, job_data) ->
  (ident = VNone ->
   exists w',
     process ctl t r w = (Ret tt, w') /\
     timeouts w' = (timeouts w ++ [mkTimeout (retry_delay t) t r])%list /\
     completed w' = completed w) /\
  (ident <> VNone ->
   forall s, py_str ident = Some s ->
   exists w',
     process ctl t r w = (Ret tt, w') /\
     (forall k, k ∈ descriptor_attributes ->
                properties (items w' r) !! k = Some (job_get job_data k)) /\
     properties (items w' r) !! "ident" = Some ident /\
     properties (items w' r) !! "pipeline_id" = Some (VStr pid) /\
     output (items w' r) =
       (output (items w r) ++ ["Received item " +:+ s +:+ "."])%list /\
     completed w' = (completed w ++ [(name t, r)])%list /\
     timeouts w' = timeouts w).
Proof.
  intros Hb Hres. unfold process. rewrite Hb.
  unfold GetItemFromQueue_process. rewrite try_call_bind, Hres. simpl.
  split.
  - intros ->. simpl. rewrite try_schedule_retry.
    destruct (schedule_retry_outcome t r w) as (w' & Hrun & _ & _ & Hto & _ & _ & Hc & _).
    exists w'. auto.
  - intros Hne s Hs.
    assert (Hn : is_none ident = false) by (destruct ident; [contradiction | reflexivity ..]).
    rewrite Hn. eexists. split.
    + do 11 step. apply try_complete_item.
    + autorewrite with world. fields. repeat split; try by simplify_map_eq.
      intros k Hk. unfold descriptor_attributes in Hk.
      repeat (apply elem_of_cons in Hk as [-> | Hk]); try by simplify_map_eq.
      by apply elem_of_nil in Hk.
Qed.

Lemma reservation_outcomes_witness :
  exists w',
    process busy_control (GetItemFromQueue "p1" 5) 0%nat blank_world = (Ret tt, w') /\
    (forall k, k ∈ descriptor_attributes ->
               properties (items w' 0%nat) !! k = Some (job_get example_job k)) /\
    properties (items w' 0%nat) !! "ident" = Some (VStr "abc123") /\
    properties (items w' 0%nat) !! "pipeline_id" = Some (VStr "p1") /\
    output (items w' 0%nat) = ["Received item abc123."] /\
    completed w' = [("GetItemFromQueue", 0%nat)] /\
    timeouts w' = [].
Proof.
  refine (proj2 (reservation_outcomes busy_control "p1" (GetItemFromQueue "p1" 5)
                   0%nat blank_world (VStr "abc123") example_job _ _)
                _ "abc123" _).
  - reflexivity.
  - reflexivity.
  - discriminate.
  - reflexivity.
Defined.

(** ** Relabeling an aborted job *)

(** C5.  When [is_aborted] answers true for the item's job,
    [RelabelIfAborted.process] sets [aborted], appends [-aborted] to
    [warc_file_base], recomputes [target_warc_file] and [target_info_file]
    from the new base, and leaves every other attribute, the source paths
    among them, as it was. *)
Theorem relabel_rewrites_target_paths_only ctl t r w ident a base b dir d :
  body t = BRelabelIfAborted ->
  properties (items w r) !! "ident" = Some ident ->
  is_aborted ctl ident = Ret a ->
  py_truthy a = true ->
  properties (items w r) !! "warc_file_base" = Some base ->
  py_str base = Some b ->
  properties (items w r) !! "data_dir" = Some dir ->
  py_str dir = Some d ->
  exists w',
    process ctl t r w = (Ret tt, w') /\
    properties (items w' r) !! "aborted" = Some (VBool true) /\
    properties (items w' r) !! "warc_file_base" = Some (VStr (b +:+ "-aborted")) /\
    properties (items w' r) !! "target_warc_file" =
      Some (VStr (d +:+ "/" +:+ (b +:+ "-aborted") +:+ ".warc.gz")) /\
    properties (items w' r) !! "target_info_file" =
      Some (VStr (d +:+ "/" +:+ (b +:+ "-aborted") +:+ ".json")) /\
    properties (items w' r) !! "source_warc_file" =
      properties (items w r) !! "source_warc_file" /\
    properties (items w' r) !! "source_info_file" =
      properties (items w r) !! "source_info_file" /\
    (forall k,
       k ∉ ["aborted"; "warc_file_base"; "target_warc_file"; "target_info_file"] ->
       properties (items w' r) !! k = properties (items w r) !! k) /\
    completed w' = (completed w ++ [(name t, r)])%list.
Proof.
  intros Hb Hi Ha Ht Hbase Hsb Hdir Hsd.
  unfold process. rewrite Hb. unfold RelabelIfAborted_process.
  eexists. split.
  - step. step. rewrite Ht. unfold set_target_paths. step.
    apply try_complete_item.
  - autorewrite with world. fields.
    repeat split; try by simplify_map_eq.
    intros k Hk.
    rewrite !lookup_insert_ne; [reflexivity | | | |];
      intros <-; apply Hk; set_solver.
Qed.

Lemma relabel_rewrites_target_paths_only_witness :
  exists w',
    process busy_control RelabelIfAborted 0%nat prepared_world = (Ret tt, w') /\
    properties (items w' 0%nat) !! "target_warc_file" =
      Some (VStr "/data/example-20140307-090500-abc12-aborted.warc.gz") /\
    properties (items w' 0%nat) !! "source_warc_file" =
      Some (VStr "/data/abc123/example-20140307-090500-abc12.warc.gz").
Proof.
  destruct (relabel_rewrites_target_paths_only busy_control RelabelIfAborted 0%nat
              prepared_world (VStr "abc123") (VBool true)
              (VStr "example-20140307-090500-abc12") "example-20140307-090500-abc12"
              (VStr "/data") "/data")
    as (w' & Hrun & _ & _ & Hw & _ & Hs & _).
  1-8: vm_compute; reflexivity.
  exists w'. split; [exact Hrun |]. split; [exact Hw |].
  rewrite Hs. vm_compute. reflexivity.
Defined.

(** ** Preparing the paths *)

Lemma padded_digits width lo count n :
  forallb (fun n => n_digits width (padded width n)) (seqZ lo count) = true ->
  lo <= n < lo + count -> n_digits width (padded width n) = true.
Proof.
  intros Hall Hn. rewrite forallb_forall in Hall. apply Hall.
  apply list_elem_of_In, elem_of_seqZ. lia.
Qed.

Lemma padded_2_digits n : 0 <= n < 100 -> n_digits 2 (padded 2 n) = true.
Proof. apply (padded_digits 2 0 100). vm_compute. reflexivity. Qed.

Lemma padded_4_digits n : 1000 <= n < 10000 -> n_digits 4 (padded 4 n) = true.
Proof. apply (padded_digits 4 1000 9000). vm_compute. reflexivity. Qed.

Lemma strftime_stamp_shape now : valid_time now -> stamp_shape (strftime_stamp now).
Proof.
  intros (Hy & Hm & Hd & Hh & Hmi & Hs).
  exists (padded 4 (tm_year now)), (padded 2 (tm_mon now)), (padded 2 (tm_mday now)),
         (padded 2 (tm_hour now)), (padded 2 (tm_min now)), (padded 2 (tm_sec now)).
  split; [reflexivity |].
  repeat split; first [apply padded_4_digits | apply padded_2_digits]; lia.
Qed.

(** C6.  From [data_dir], the string [ident] and [slug], [PreparePaths]
    derives the working directory [<data_dir>/<ident>], the base
    [<slug>-<timestamp>-<first five characters of ident>], the source WARC
    and info files and the cookie jar under the working directory, and the
    target WARC and info files directly under [data_dir], the WARC files
    ending in [.warc.gz] and the info files in [.json].  The timestamp of
    a valid local time reads [YYYYMMDD-HHMMSS]. *)
Theorem prepare_paths_layout fs now r w dir d i slug s :
  properties (items w r) !! "data_dir" = Some dir ->
  py_str dir = Some d ->
  properties (items w r) !! "ident" = Some (VStr i) ->
  properties (items w r) !! "slug" = Some slug ->
  py_str slug = Some s ->
  (isdir fs (d +:+ "/" +:+ i) = true ->
   fs_fault fs (FsRmtree (VStr (d +:+ "/" +:+ i))) = None) ->
  fs_fault fs (FsMakedirs (VStr (d +:+ "/" +:+ i))) = None ->
  exists w' item_dir base,
    PreparePaths_process fs now r w = (Ret tt, w') /\
    item_dir = d +:+ "/" +:+ i /\
    base = s +:+ "-" +:+ strftime_stamp now +:+ "-" +:+ String.substring 0 5 i /\
    (valid_time now -> stamp_shape (strftime_stamp now)) /\
    properties (items w' r) !! "item_dir" = Some (VStr item_dir) /\
    properties (items w' r) !! "warc_file_base" = Some (VStr base) /\
    properties (items w' r) !! "source_warc_file" =
      Some (VStr (item_dir +:+ "/" +:+ base +:+ ".warc.gz")) /\
    properties (items w' r) !! "source_info_file" =
      Some (VStr (item_dir +:+ "/" +:+ base +:+ ".json")) /\
    properties (items w' r) !! "cookie_jar" =
      Some (VStr (item_dir +:+ "/cookies.txt")) /\
    properties (items w' r) !! "target_warc_file" =
      Some (VStr (d +:+ "/" +:+ base +:+ ".warc.gz")) /\
    properties (items w' r) !! "target_info_file" =
      Some (VStr (d +:+ "/" +:+ base +:+ ".json")).
Proof.
  intros Hdir Hsd Hi Hslug Hss Hrm Hmk.
  unfold PreparePaths_process, set_target_paths.
  assert (Hsi : py_str (VStr i) = Some i) by reflexivity.
  destruct (isdir fs (d +:+ "/" +:+ i)) eqn:Hd.
  - specialize (Hrm eq_refl).
    eexists _, _, _. split; [| split; [reflexivity | split; [reflexivity |]]].
    + do 4 step. rewrite Hd. do 14 step. fact.
    + split; [apply strftime_stamp_shape |].
      autorewrite with world. repeat split; by simplify_map_eq.
  - eexists _, _, _. split; [| split; [reflexivity | split; [reflexivity |]]].
    + do 4 step. rewrite Hd. do 14 step. fact.
    + split; [apply strftime_stamp_shape |].
      autorewrite with world. repeat split; by simplify_map_eq.
Qed.

Lemma prepare_paths_layout_witness :
  exists w',
    PreparePaths_process sound_fs example_time 0%nat reserved_world = (Ret tt, w') /\
    properties (items w' 0%nat) !! "item_dir" = Some (VStr "/data/abc123") /\
    properties (items w' 0%nat) !! "warc_file_base" =
      Some (VStr "example-20140307-090500-abc12") /\
    properties (items w' 0%nat) !! "source_warc_file" =
      Some (VStr "/data/abc123/example-20140307-090500-abc12.warc.gz") /\
    properties (items w' 0%nat) !! "cookie_jar" =
      Some (VStr "/data/abc123/cookies.txt") /\
    properties (items w' 0%nat) !! "target_info_file" =
      Some (VStr "/data/example-20140307-090500-abc12.json").
Proof.
  destruct (prepare_paths_layout sound_fs example_time 0%nat reserved_world
              (VStr "/data") "/data" "abc123" (VStr "example") "example")
    as (w' & item_dir & base & Hrun & -> & -> & _ & Hd & Hb & Hsw & _ & Hc & _ & Hti).
  1-5, 7: vm_compute; reflexivity.
  - discriminate.
  - exists w'. repeat split; assumption.
Defined.

(** ** Writing the metadata record *)

(** C7.  [WriteInfo] builds a record with exactly the seven keys [aborted],
    [fetch_depth], [pipeline_id], [queued_at], [started_by], [started_in]
    and [url], the first being the item's [aborted] attribute or [False]
    when no stage set it, the others the item's attributes of the same name;
    it opens [source_info_file] for writing and writes the record there as
    JSON indented by one space. *)
Theorem write_info_record fs r w fetch_depth pipeline_id queued_at started_by
    started_in url path text :
  properties (items w r) !! "fetch_depth" = Some fetch_depth ->
  properties (items w r) !! "pipeline_id" = Some pipeline_id ->
  properties (items w r) !! "queued_at" = Some queued_at ->
  properties (items w r) !! "started_by" = Some started_by ->
  properties (items w r) !! "started_in" = Some started_in ->
  properties (items w r) !! "url" = Some url ->
  properties (items w r) !! "source_info_file" = Some path ->
  json_encode 0
    (VDict [("aborted", default (VBool false) (properties (items w r) !! "aborted"));
            ("fetch_depth", fetch_depth); ("pipeline_id", pipeline_id);
            ("queued_at", queued_at); ("started_by", started_by);
            ("started_in", started_in); ("url", url)]) = Ret text ->
  fs_fault fs (FsOpenW path) = None ->
  fs_fault fs (FsWrite path text) = None ->
  exists w' info,
    WriteInfo_process fs r w = (Ret tt, w') /\
    info = [("aborted", default (VBool false) (properties (items w r) !! "aborted"));
            ("fetch_depth", fetch_depth); ("pipeline_id", pipeline_id);
            ("queued_at", queued_at); ("started_by", started_by);
            ("started_in", started_in); ("url", url)] /\
    map fst info = info_keys /\
    (properties (items w r) !! "aborted" = None ->
     info !! 0%nat = Some ("aborted", VBool false)) /\
    properties (items w' r) !! "info" = Some (VDict info) /\
    json_encode 0 (VDict info) = Ret text /\
    fs_trace w' = (fs_trace w ++ [FsOpenW path; FsWrite path text])%list.
Proof.
  intros Hfd Hpid Hqa Hsb Hsi Hurl Hpath Hjson Hopen Hwrite.
  unfold WriteInfo_process, json_dumps.
  destruct (properties (items w r) !! "aborted") as [a |] eqn:Ha; simpl in Hjson.
  - eexists _, _. split; [| split; [reflexivity |]].
    + eapply bind_run; [eapply contains_some; exact Ha | cbv beta iota].
      do 12 step. fact.
    + split; [reflexivity |]. split; [discriminate |].
      split; [autorewrite with world; by simplify_map_eq |].
      split; [exact Hjson |].
      fields. by rewrite <- app_assoc.
  - eexists _, _. split; [| split; [reflexivity |]].
    + eapply bind_run; [eapply contains_none; exact Ha | cbv beta iota].
      do 12 step. fact.
    + split; [reflexivity |]. split; [reflexivity |].
      split; [autorewrite with world; by simplify_map_eq |].
      split; [exact Hjson |].
      fields. by rewrite <- app_assoc.
Qed.


Lemma write_info_record_witness :
  exists w' text,
    WriteInfo_process sound_fs 0%nat prepared_world = (Ret tt, w') /\
    properties (items w' 0%nat) !! "info" =
      Some (VDict [("aborted", VBool false); ("fetch_depth", VStr "shallow");
                   ("pipeline_id", VStr "p1"); ("queued_at", VNone);
                   ("started_by", VNone); ("started_in", VNone);
                   ("url", VStr "http://x")]) /\
    fs_trace w' =
      (fs_trace prepared_world ++
       [FsOpenW (VStr "/data/abc123/example-20140307-090500-abc12.json");
        FsWrite (VStr "/data/abc123/example-20140307-090500-abc12.json") text])%list.
Proof.
  edestruct (write_info_record sound_fs 0%nat prepared_world
               (VStr "shallow") (VStr "p1") VNone VNone VNone (VStr "http://x")
               (VStr "/data/abc123/example-20140307-090500-abc12.json"))
    as (w' & info & Hrun & -> & _ & _ & Hinfo & _ & Hfs).
  1-8: vm_compute; reflexivity.
  1-2: reflexivity.
  exists w'. eexists. split; [exact Hrun |]. split; [| exact Hfs].
  rewrite Hinfo. vm_compute. reflexivity.
Defined.

(** The text of a record: one key per line, one space of indentation. *)
Example json_encode_layout :
  json_encode 0 (VDict [("aborted", VBool false); ("url", VStr "http://x")]) =
  Ret ("{" +:+ newline +:+
       " " +:+ dquote +:+ "aborted" +:+ dquote +:+ ": false," +:+ newline +:+
       " " +:+ dquote +:+ "url" +:+ dquote +:+ ": " +:+
           dquote +:+ "http://x" +:+ dquote +:+ newline +:+
       "}").
Proof. vm_compute. reflexivity. Qed.

(** ** Translating the fetch depth *)

Lemma eq_str_true v s : eq_str v s = true <-> v = VStr s.
Proof.
  destruct v; simpl; split; try discriminate.
  - intros H. apply bool_decide_eq_true in H. by subst.
  - intros [= ->]. by apply bool_decide_eq_true.
Qed.

(** C8.  [SetFetchDepth] turns the depth ["shallow"] into three empty
    options, and any other depth into [--recursive], [--level] and the
    depth itself; the depth ["5"] gives [--recursive], [--level], ["5"]. *)
Theorem fetch_depth_translation r w depth :
  properties (items w r) !! "fetch_depth" = Some depth ->
  exists w' recursive level depth',
    SetFetchDepth_process r w = (Ret tt, w') /\
    properties (items w' r) !! "recursive" = Some recursive /\
    properties (items w' r) !! "level" = Some level /\
    properties (items w' r) !! "depth" = Some depth' /\
    (depth = VStr "shallow" ->
     recursive = VStr "" /\ level = VStr "" /\ depth' = VStr "") /\
    (depth <> VStr "shallow" ->
     recursive = VStr "--recursive" /\ level = VStr "--level" /\ depth' = depth) /\
    (depth = VStr "5" ->
     recursive = VStr "--recursive" /\ level = VStr "--level" /\ depth' = VStr "5").
Proof.
  intros Hd. unfold SetFetchDepth_process.
  destruct (eq_str depth "shallow") eqn:He.
  - apply eq_str_true in He as Heq.
    eexists _, (VStr ""), (VStr ""), (VStr ""). split.
    + step. rewrite He. do 2 step. fact.
    + autorewrite with world.
      split; [by simplify_map_eq |]. split; [by simplify_map_eq |].
      split; [by simplify_map_eq |]. split; [done |].
      split; [intros Hne; contradiction | intros H5; congruence].
  - assert (Hne : depth <> VStr "shallow").
    { intros Heq. apply eq_str_true in Heq. congruence. }
    eexists _, (VStr "--recursive"), (VStr "--level"), depth. split.
    + step. rewrite He. do 2 step. fact.
    + autorewrite with world.
      split; [by simplify_map_eq |]. split; [by simplify_map_eq |].
      split; [by simplify_map_eq |]. split; [intros Heq; contradiction |].
      split; [done | intros ->; done].
Qed.

Lemma fetch_depth_translation_witness :
  exists w',
    SetFetchDepth_process 0%nat
      (put 0%nat "fetch_depth" (VStr "5") blank_world) = (Ret tt, w') /\
    properties (items w' 0%nat) !! "recursive" = Some (VStr "--recursive") /\
    properties (items w' 0%nat) !! "level" = Some (VStr "--level") /\
    properties (items w' 0%nat) !! "depth" = Some (VStr "5").
Proof.
  destruct (fetch_depth_translation 0%nat
              (put 0%nat "fetch_depth" (VStr "5") blank_world) (VStr "5"))
    as (w' & rec & lev & dep & Hrun & Hr & Hl & Hd & _ & _ & H5).
  { vm_compute; reflexivity. }
  destruct (H5 eq_refl) as (-> & -> & ->).
  exists w'. repeat split; assumption.
Defined.

(** ** Stopping the heartbeat *)

(** C9.  [StopHeartbeat.process] returns normally whether or not the item
    holds a heartbeat handle: without one it appends a warning to the item's
    log and changes nothing else; with one it stops that timer and removes
    the handle from the item. *)
Theorem stop_heartbeat_tolerates_missing_handle r w :
  (properties (items w r) !! "heartbeat" = None ->
   exists w',
     StopHeartbeat_process r w = (Ret tt, w') /\
     output (items w' r) =
       (output (items w r) ++ ["Warning: couldn't find a heartbeat to stop"])%list /\
     properties (items w' r) = properties (items w r) /\
     timers w' = timers w) /\
  (forall id,
     properties (items w r) !! "heartbeat" = Some (VTimer id) ->
     exists w',
       StopHeartbeat_process r w = (Ret tt, w') /\
       properties (items w' r) = delete "heartbeat" (properties (items w r)) /\
       properties (items w' r) !! "heartbeat" = None /\
       (forall tm, timers w !! id = Some tm ->
                   timers w' !! id = Some (set_running false tm)) /\
       output (items w' r) = output (items w r)).
Proof.
  unfold StopHeartbeat_process. split.
  - intros Hn. eexists. split.
    + eapply bind_run; [eapply contains_none; exact Hn | cbv beta iota].
      reflexivity.
    + autorewrite with world. fields. repeat split.
  - intros id Hs. eexists. split.
    + eapply bind_run; [eapply contains_some; exact Hs | cbv beta iota].
      do 2 step. unfold delitem. autorewrite with world. rewrite Hs. reflexivity.
    + autorewrite with world. fields. repeat split.
      * apply lookup_delete_eq.
      * intros tm Htm. by rewrite list_lookup_alter_eq, Htm.
Qed.

Lemma stop_heartbeat_tolerates_missing_handle_witness :
  exists w',
    StopHeartbeat_process 0%nat blank_world = (Ret tt, w') /\
    output (items w' 0%nat) = ["Warning: couldn't find a heartbeat to stop"] /\
    properties (items w' 0%nat) = properties (items blank_world 0%nat) /\
    timers w' = [].
Proof.
  apply (proj1 (stop_heartbeat_tolerates_missing_handle 0%nat blank_world)).
  vm_compute. reflexivity.
Defined.

(** A heartbeat that was started is stopped, and its handle removed. *)
Example stop_heartbeat_after_start :
  timers prepared_world = [mkTimer 0%nat 1000 true] /\
  timers (exec (EvStopHeartbeat 0%nat) prepared_world) = [mkTimer 0%nat 1000 false] /\
  properties (items (exec (EvStopHeartbeat 0%nat) prepared_world) 0%nat) !! "heartbeat"
    = None.
Proof. vm_compute. repeat split. Qed.

(** ** Atomicity of a failed reservation *)

(** C10.  When [GetItemFromQueue.process] takes the retry path, because
    [reserve_job] raised the connection-lost error or answered with no
    identifier, the item is as it was but for the lines appended to its
    output and for [may_be_canceled]: no attribute is written, the job
    attributes in particular, and nothing is completed. *)
Theorem reservation_retry_leaves_item_untouched ctl pid t r w :
  body t = BGetItemFromQueue pid ->
  (reserve_job ctl pid = Raise ConnectionError \/
   exists job_data, reserve_job ctl pid = Ret (VNone, job_data)) ->
  exists w' notes,
    process ctl t r w = (Ret tt, w') /\
    items w' r =
      {| properties := properties (items w r);
         output := (output (items w r) ++ notes)%list;
         may_be_canceled := cancelable t;
         canceled := canceled (items w r) |} /\
    (forall k, k ∈ job_attributes ->
               properties (items w' r) !! k = properties (items w r) !! k) /\
    (forall r', r' <> r -> items w' r' = items w r') /\
    completed w' = completed w /\
    timeouts w' = (timeouts w ++ [mkTimeout (retry_delay t) t r])%list.
Proof.
  intros Hb Hres.
  assert (Hout : exists w' notes,
             process ctl t r w = (Ret tt, w') /\ retry_outcome t r notes w w').
  { destruct Hres as [Hlost | [jd Hnone]].
    - destruct (on_connection_error_outcome t r w) as (w' & Hrun & Ho).
      exists w', [retry_notice connection_reason t]. split; [| exact Ho].
      rewrite <- Hrun. apply connection_lost_process.
      unfold connection_lost. by rewrite Hb.
    - destruct (schedule_retry_outcome t r w) as (w' & Hrun & Ho).
      exists w', []. split; [| exact Ho].
      unfold process. rewrite Hb. unfold GetItemFromQueue_process.
      rewrite try_call_bind, Hnone. exact Hrun. }
  destruct Hout as (w' & notes & Hrun & Hi & Ho & Hto & _ & _ & Hc & _).
  exists w', notes. rewrite Hi. simpl. repeat split; assumption.
Qed.

Lemma reservation_retry_leaves_item_untouched_witness :
  exists w' notes,
    process lost_control (GetItemFromQueue "p1" 5) 0%nat blank_world = (Ret tt, w') /\
    items w' 0%nat =
      {| properties := properties blank_item;
         output := notes;
         may_be_canceled := true;
         canceled := false |} /\
    (forall k, k ∈ job_attributes ->
               properties (items w' 0%nat) !! k = properties blank_item !! k) /\
    (forall r', r' <> 0%nat -> items w' r' = blank_item) /\
    completed w' = [] /\
    timeouts w' = [mkTimeout 5 (GetItemFromQueue "p1" 5) 0%nat].
Proof.
  apply (reservation_retry_leaves_item_untouched lost_control "p1"
           (GetItemFromQueue "p1" 5) 0%nat blank_world).
  - reflexivity.
  - left. reflexivity.
Defined.

(** ** Whole runs *)

(** An error that is not a lost connection passes through a retryable
    stage: nothing is logged, scheduled or completed. *)
Lemma missing_ident_propagates ctl r w :
  properties (items w r) !! "ident" = None ->
  process ctl RelabelIfAborted r w = (Raise (KeyError "ident"), w) /\
  process ctl SetWarcFileSizeInRedis r w = (Raise (KeyError "ident"), w).
Proof.
  intros Hn. unfold process; simpl.
  unfold RelabelIfAborted_process, SetWarcFileSizeInRedis_process,
    try_except_ConnectionError, bind.
  by rewrite (getitem_none _ _ _ Hn).
Qed.

(** Every stage succeeding at once: the four retryable stages each complete
    the item, nothing is left on the event loop, no retry is logged, the
    heartbeat is stopped, and the filesystem saw the working directory
    made, the info file written, both artifacts moved and the directory
    removed. *)
Example smooth_run_completes :
  completed smooth_run =
    [("GetItemFromQueue", 0%nat); ("RelabelIfAborted", 0%nat);
     ("SetWarcFileSizeInRedis", 0%nat); ("MarkItemAsDone", 0%nat)] /\
  timeouts smooth_run = [] /\
  output (items smooth_run 0%nat) =
    ["Starting GetItemFromQueue for Item "; "Received item abc123.";
     "Starting RelabelIfAborted for Item ";
     "Starting SetWarcFileSizeInRedis for Item ";
     "Starting MarkItemAsDone for Item "] /\
  timers smooth_run = [mkTimer 0%nat 1000 false] /\
  properties (items smooth_run 0%nat) !! "heartbeat" = None /\
  map (fun op => match op with
                 | FsRmtree _ => "rmtree" | FsMakedirs _ => "makedirs"
                 | FsRename _ _ => "rename" | FsOpenW _ => "open"
                 | FsWrite _ _ => "write"
                 end) (fs_trace smooth_run) =
    ["makedirs"; "open"; "write"; "rename"; "rename"; "rmtree"].
Proof. vm_compute. repeat split. Qed.

(** The controller out of reach twice, then answering: exactly two retry
    notices at the configured delay, then the job is received. *)
Example flaky_run_retries_twice :
  output (items flaky_run 0%nat) =
    ["Starting GetItemFromQueue for Item ";
     "Lost connection to ArchiveBot controller. Retrying GetItemFromQueue in 5 seconds.";
     "Lost connection to ArchiveBot controller. Retrying GetItemFromQueue in 5 seconds.";
     "Received item abc123."] /\
  timeouts flaky_run = [] /\
  completed flaky_run = [("GetItemFromQueue", 0%nat)] /\
  may_be_canceled (items flaky_run 0%nat) = false.
Proof. vm_compute. repeat split. Qed.

(** An aborted job: the target names carry [-aborted], the source names do
    not. *)
Example relabeled_world_paths :
  properties (items relabeled_world 0%nat) !! "target_warc_file" =
    Some (VStr "/data/example-20140307-090500-abc12-aborted.warc.gz") /\
  properties (items relabeled_world 0%nat) !! "target_info_file" =
    Some (VStr "/data/example-20140307-090500-abc12-aborted.json") /\
  properties (items relabeled_world 0%nat) !! "source_warc_file" =
    Some (VStr "/data/abc123/example-20140307-090500-abc12.warc.gz") /\
  properties (items relabeled_world 0%nat) !! "source_info_file" =
    Some (VStr "/data/abc123/example-20140307-090500-abc12.json").
Proof. vm_compute. repeat split. Qed.

(** * Further properties of the stages *)

(** ** How a retryable stage ends *)

(** X1.  A run of [process] that returns did exactly one of two things: it
    completed the item, scheduling nothing, or it scheduled one retry of
    itself on the item after [retry_delay] seconds, completing nothing and
    setting [may_be_canceled] to its [cancelable]. *)
Theorem process_returns_completed_or_retrying ctl t r w w' :
  process ctl t r w = (Ret tt, w') ->
  (completed w' = (completed w ++ [(name t, r)])%list /\ timeouts w' = timeouts w) \/
  (completed w' = completed w /\
   timeouts w' = (timeouts w ++ [mkTimeout (retry_delay t) t r])%list /\
   may_be_canceled (items w' r) = cancelable t).
Proof.
  intros Hrun. pose proof (process_ends ctl t r w) as H.
  rewrite Hrun in H. simpl in H.
  destruct H as [(Ht & Hc & _) | (Ht & Hc & Hm & _)]; [left | right]; auto.
Qed.

Lemma process_returns_completed_or_retrying_witness :
  (completed (snd (process lost_control (MarkItemAsDone 3600) 0%nat blank_world)) =
     [("MarkItemAsDone", 0%nat)] /\
   timeouts (snd (process lost_control (MarkItemAsDone 3600) 0%nat blank_world)) = []) \/
  (completed (snd (process lost_control (MarkItemAsDone 3600) 0%nat blank_world)) = [] /\
   timeouts (snd (process lost_control (MarkItemAsDone 3600) 0%nat blank_world)) =
     [mkTimeout 5 (MarkItemAsDone 3600) 0%nat] /\
   may_be_canceled
     (items (snd (process lost_control (MarkItemAsDone 3600) 0%nat blank_world)) 0%nat) =
     false).
Proof.
  apply (process_returns_completed_or_retrying lost_control (MarkItemAsDone 3600)
           0%nat blank_world).
  reflexivity.
Defined.

Lemma try_never_raises_connection_error {A} (m : M A) (h : M A) w e w' :
  (forall w0, exists a w1, h w0 = (Ret a, w1)) ->
  try_except_ConnectionError m h w = (Raise e, w') -> e <> ConnectionError.
Proof.
  intros Hh. unfold try_except_ConnectionError.
  destruct (m w) as [[a | e0] w1]; [discriminate |].
  destruct e0; try (intros [= <- _]; discriminate).
  destruct (Hh w1) as (a & w2 & ->). discriminate.
Qed.

Lemma on_connection_error_returns t r w0 :
  exists a w1, on_connection_error t r w0 = (Ret a, w1).
Proof. eexists _, _. reflexivity. Qed.

(** X2.  The connection-lost error never leaves a retryable stage: when
    [process] raises, the exception is another one, nothing was completed
    or scheduled, and no item's cancellation flag changed. *)
Theorem connection_error_never_escapes ctl t r w e w' :
  process ctl t r w = (Raise e, w') ->
  e <> ConnectionError /\
  completed w' = completed w /\
  timeouts w' = timeouts w /\
  forall r', may_be_canceled (items w' r') = may_be_canceled (items w r') /\
             canceled (items w' r') = canceled (items w r').
Proof.
  intros Hrun. split.
  - revert Hrun. unfold process. destruct (body t);
      apply try_never_raises_connection_error; apply on_connection_error_returns.
  - pose proof (process_ends ctl t r w) as H.
    rewrite Hrun in H. simpl in H. destruct H as (Ht & Hc & Hf). auto.
Qed.

Lemma connection_error_never_escapes_witness :
  OtherError "protocol error" <> ConnectionError /\
  completed blank_world = completed blank_world /\
  timeouts blank_world = timeouts blank_world /\
  forall r', may_be_canceled (items blank_world r') = may_be_canceled (items blank_world r') /\
             canceled (items blank_world r') = canceled (items blank_world r').
Proof.
  apply (connection_error_never_escapes broken_control (GetItemFromQueue "p1" 5)
           0%nat blank_world (OtherError "protocol error") blank_world).
  reflexivity.
Defined.

(** X3.  Any failure of the controller that is not a lost connection passes
    through the stage untouched: [process] raises it, and the world is as
    it was, with nothing logged, scheduled or completed. *)
Theorem other_errors_propagate e ctl t r w :
  e <> ConnectionError ->
  controller_raises e ctl t r w ->
  process ctl t r w = (Raise e, w).
Proof.
  intros He. unfold controller_raises, process. destruct (body t) as [pid | | | x].
  - intros H. unfold GetItemFromQueue_process. rewrite try_call_bind, H.
    by destruct e.
  - intros (ident & Hi & H).
    unfold RelabelIfAborted_process, try_except_ConnectionError, bind.
    rewrite (getitem_some _ _ _ _ Hi). unfold call. rewrite H. by destruct e.
  - intros (ident & p & Hi & Hp & H).
    unfold SetWarcFileSizeInRedis_process, try_except_ConnectionError, bind.
    rewrite (getitem_some _ _ _ _ Hi), (getitem_some _ _ _ _ Hp).
    unfold call. rewrite H. by destruct e.
  - intros H.
    unfold MarkItemAsDone_process, try_except_ConnectionError, bind, call.
    rewrite H. by destruct e.
Qed.

Lemma other_errors_propagate_witness :
  process broken_control SetWarcFileSizeInRedis 0%nat prepared_world =
  (Raise (OtherError "protocol error"), prepared_world).
Proof.
  apply (other_errors_propagate (OtherError "protocol error") broken_control
           SetWarcFileSizeInRedis 0%nat prepared_world).
  - discriminate.
  - exists (VStr "abc123"), (VStr "/data/example-20140307-090500-abc12.warc.gz").
    repeat split; vm_compute; reflexivity.
Defined.

(** X4.  On a lost connection no stage touches the item's attributes: but
    for the retry notice and [may_be_canceled], the item, every other item,
    the timers and the filesystem are as they were. *)
Theorem connection_lost_touches_no_attribute ctl t r w :
  connection_lost ctl t r w ->
  exists w',
    process ctl t r w = (Ret tt, w') /\
    properties (items w' r) = properties (items w r) /\
    canceled (items w' r) = canceled (items w r) /\
    (forall r', r' <> r -> items w' r' = items w r') /\
    timers w' = timers w /\ started w' = started w /\ fs_trace w' = fs_trace w.
Proof.
  intros H. rewrite (connection_lost_process _ _ _ _ H).
  destruct (on_connection_error_outcome t r w)
    as (w' & Hrun & Hi & Ho & _ & Htm & Hs & _ & Hfs).
  exists w'. rewrite Hi. simpl. repeat split; assumption.
Qed.

Lemma connection_lost_touches_no_attribute_witness :
  exists w',
    process lost_control RelabelIfAborted 0%nat prepared_world = (Ret tt, w') /\
    properties (items w' 0%nat) = properties (items prepared_world 0%nat) /\
    canceled (items w' 0%nat) = canceled (items prepared_world 0%nat) /\
    (forall r', r' <> 0%nat -> items w' r' = items prepared_world r') /\
    timers w' = timers prepared_world /\ started w' = started prepared_world /\
    fs_trace w' = fs_trace prepared_world.
Proof.
  apply (connection_lost_touches_no_attribute lost_control RelabelIfAborted 0%nat
           prepared_world).
  exists (VStr "abc123"). split; vm_compute; reflexivity.
Defined.

(** ** Retrying and canceling *)

Lemma retry_round ctl t r w :
  timeouts w = [mkTimeout (retry_delay t) t r] ->
  canceled (items w r) = false ->
  connection_lost ctl t r
    (upd_item r (set_may_be_canceled false) (drop_timeout 0 w)) ->
  timeouts (exec (EvFire ctl 0%nat) w) = [mkTimeout (retry_delay t) t r] /\
  completed (exec (EvFire ctl 0%nat) w) = completed w /\
  output (items (exec (EvFire ctl 0%nat) w) r) =
    (output (items w r) ++ [retry_notice connection_reason t])%list /\
  properties (items (exec (EvFire ctl 0%nat) w) r) = properties (items w r) /\
  may_be_canceled (items (exec (EvFire ctl 0%nat) w) r) = cancelable t /\
  canceled (items (exec (EvFire ctl 0%nat) w) r) = false.
Proof.
  intros Hto Hc Hlost. unfold exec. cbn [run]. unfold fire.
  rewrite Hto. cbn [lookup list_lookup to_task to_item].
  rewrite retry_unfold. change (items (drop_timeout 0 w)) with (items w).
  rewrite Hc, (connection_lost_process _ _ _ _ Hlost).
  destruct (on_connection_error_outcome t r
              (upd_item r (set_may_be_canceled false) (drop_timeout 0 w)))
    as (w' & Hrun & Hi & _ & Hto' & _ & _ & Hcomp & _).
  rewrite Hrun. cbn [snd]. rewrite Hi, Hto', Hcomp. simpl.
  rewrite Hto. simpl.
  destruct (decide (r = r)); [| contradiction]. simpl. repeat split. exact Hc.
Qed.

(** X5.  Retries have no bound: as long as the controller stays out of
    reach and nobody cancels the item, each firing of the pending retry
    logs one more notice and leaves exactly one retry pending, with nothing
    completed and no attribute touched. *)
Theorem lost_connection_retries_without_bound ctl t r w n :
  timeouts w = [] ->
  canceled (items w r) = false ->
  (forall w0, properties (items w0 r) = properties (items w r) ->
              connection_lost ctl t r w0) ->
  timeouts (retry_rounds ctl n (snd (process ctl t r w))) =
    [mkTimeout (retry_delay t) t r] /\
  completed (retry_rounds ctl n (snd (process ctl t r w))) = completed w /\
  output (items (retry_rounds ctl n (snd (process ctl t r w))) r) =
    (output (items w r) ++ replicate (S n) (retry_notice connection_reason t))%list /\
  properties (items (retry_rounds ctl n (snd (process ctl t r w))) r) =
    properties (items w r) /\
  may_be_canceled (items (retry_rounds ctl n (snd (process ctl t r w))) r) =
    cancelable t.
Proof.
  intros Hto Hc Hlost.
  assert (Hall :
    timeouts (retry_rounds ctl n (snd (process ctl t r w))) =
      [mkTimeout (retry_delay t) t r] /\
    completed (retry_rounds ctl n (snd (process ctl t r w))) = completed w /\
    output (items (retry_rounds ctl n (snd (process ctl t r w))) r) =
      (output (items w r) ++ replicate (S n) (retry_notice connection_reason t))%list /\
    properties (items (retry_rounds ctl n (snd (process ctl t r w))) r) =
      properties (items w r) /\
    may_be_canceled (items (retry_rounds ctl n (snd (process ctl t r w))) r) =
      cancelable t /\
    canceled (items (retry_rounds ctl n (snd (process ctl t r w))) r) = false).
  { induction n as [| n IH].
    - cbn [retry_rounds].
      rewrite (connection_lost_process ctl t r w (Hlost w eq_refl)).
      destruct (on_connection_error_outcome t r w)
        as (w' & Hrun & Hi & _ & Hto' & _ & _ & Hcomp & _).
      rewrite Hrun. cbn [snd]. rewrite Hi, Hto', Hcomp, Hto. simpl.
      repeat split. exact Hc.
    - destruct IH as (IHt & IHc & IHo & IHp & IHm & IHcan).
      cbn [retry_rounds].
      set (wn := retry_rounds ctl n (snd (process ctl t r w))) in *.
      destruct (retry_round ctl t r wn IHt IHcan) as (Ht & Hcm & Ho & Hp & Hm & Hcan).
      { apply Hlost. simpl. destruct (decide (r = r)); [| contradiction].
        simpl. exact IHp. }
      rewrite Ht, Hcm, Ho, Hp, Hm, Hcan, IHc, IHo, IHp.
      repeat split.
      rewrite <- app_assoc. f_equal.
      change (replicate (S (S n)) (retry_notice connection_reason t))
        with (retry_notice connection_reason t
              :: replicate (S n) (retry_notice connection_reason t)).
      rewrite <- (replicate_cons_app (S n)). reflexivity. }
  destruct Hall as (H1 & H2 & H3 & H4 & H5 & _). auto.
Qed.

Lemma lost_connection_retries_without_bound_witness :
  timeouts (retry_rounds lost_control 7
              (snd (process lost_control (GetItemFromQueue "p1" 5) 0%nat blank_world))) =
    [mkTimeout 5 (GetItemFromQueue "p1" 5) 0%nat] /\
  completed (retry_rounds lost_control 7
               (snd (process lost_control (GetItemFromQueue "p1" 5) 0%nat blank_world))) =
    [] /\
  output (items (retry_rounds lost_control 7
                   (snd (process lost_control (GetItemFromQueue "p1" 5) 0%nat
                           blank_world))) 0%nat) =
    replicate 8
      "Lost connection to ArchiveBot controller. Retrying GetItemFromQueue in 5 seconds." /\
  properties (items (retry_rounds lost_control 7
                       (snd (process lost_control (GetItemFromQueue "p1" 5) 0%nat
                               blank_world))) 0%nat) =
    properties blank_item /\
  may_be_canceled (items (retry_rounds lost_control 7
                            (snd (process lost_control (GetItemFromQueue "p1" 5) 0%nat
                                    blank_world))) 0%nat) = true.
Proof.
  apply (lost_connection_retries_without_bound lost_control (GetItemFromQueue "p1" 5)
           0%nat blank_world 7).
  - reflexivity.
  - reflexivity.
  - intros w0 _. reflexivity.
Defined.

(** X6.  While a stage that is not cancelable waits for its retry, a
    cancellation request has no effect at all. *)
Theorem waiting_stage_ignores_cancellation ctl t r w :
  cancelable t = false ->
  connection_lost ctl t r w ->
  cancel r (snd (process ctl t r w)) = (Ret tt, snd (process ctl t r w)).
Proof.
  intros Hc Hlost. rewrite (connection_lost_process _ _ _ _ Hlost).
  destruct (on_connection_error_outcome t r w) as (w' & Hrun & Hi & _).
  rewrite Hrun. cbn [snd]. unfold cancel. by rewrite Hi, Hc.
Qed.

Lemma waiting_stage_ignores_cancellation_witness :
  cancel 0%nat (snd (process lost_control RelabelIfAborted 0%nat prepared_world)) =
  (Ret tt, snd (process lost_control RelabelIfAborted 0%nat prepared_world)).
Proof.
  apply (waiting_stage_ignores_cancellation lost_control RelabelIfAborted 0%nat
           prepared_world).
  - reflexivity.
  - exists (VStr "abc123"). split; vm_compute; reflexivity.
Defined.

(** X7.  Cancellation is final: once every item with a pending retry is
    canceled, no firing of the event loop, in any order and whatever the
    controller answers, changes an item or completes anything; the retries
    are only taken off the queue. *)
Theorem canceled_retries_never_run fires w :
  (forall to, to ∈ timeouts w -> canceled (items w (to_item to)) = true) ->
  items (fire_all fires w) = items w /\
  completed (fire_all fires w) = completed w /\
  (forall to, to ∈ timeouts (fire_all fires w) -> to ∈ timeouts w) /\
  (length (timeouts (fire_all fires w)) <= length (timeouts w))%nat.
Proof.
  revert w. induction fires as [| [ctl i] fires IH]; intros w Hcan.
  - simpl. repeat split; auto.
  - unfold fire_all in *. cbn [fold_left fst snd].
    assert (Hstep : exists w1,
               exec (EvFire ctl i) w = w1 /\ items w1 = items w /\
               completed w1 = completed w /\
               (forall to, to ∈ timeouts w1 -> to ∈ timeouts w) /\
               (length (timeouts w1) <= length (timeouts w))%nat).
    { unfold exec. cbn [run]. unfold fire.
      destruct (timeouts w !! i) as [to |] eqn:Hi.
      - rewrite retry_unfold. change (items (drop_timeout i w)) with (items w).
        rewrite (Hcan to); [| by eapply list_elem_of_lookup_2].
        eexists. split; [reflexivity |]. cbn [snd].
        split; [reflexivity |]. split; [reflexivity |]. split.
        + intros to' Hin. apply (elem_of_drop_timeout i to w to' Hi). by right.
        + simpl. rewrite length_app, length_take, length_drop. lia.
      - eexists. split; [reflexivity |]. simpl. repeat split; auto. }
    destruct Hstep as (w1 & -> & Hi1 & Hc1 & Ht1 & Hl1).
    destruct (IH w1) as (Hi2 & Hc2 & Ht2 & Hl2).
    { intros to Hin. rewrite Hi1. apply Hcan, Ht1, Hin. }
    repeat split.
    + congruence.
    + congruence.
    + intros to Hin. apply Ht1, Ht2, Hin.
    + lia.
Qed.

Lemma canceled_retries_never_run_witness :
  items (fire_all [(serving_control, 0%nat); (serving_control, 0%nat)] canceled_world) =
    items canceled_world /\
  completed (fire_all [(serving_control, 0%nat); (serving_control, 0%nat)] canceled_world) =
    completed canceled_world /\
  (forall to,
     to ∈ timeouts (fire_all [(serving_control, 0%nat); (serving_control, 0%nat)]
                      canceled_world) ->
     to ∈ timeouts canceled_world) /\
  (length (timeouts (fire_all [(serving_control, 0%nat); (serving_control, 0%nat)]
                       canceled_world)) <= length (timeouts canceled_world))%nat.
Proof.
  apply (canceled_retries_never_run
           [(serving_control, 0%nat); (serving_control, 0%nat)] canceled_world).
  intros to Hin.
  change (timeouts canceled_world)
    with [mkTimeout 5 (GetItemFromQueue "p1" 5) 0%nat] in Hin.
  apply list_elem_of_singleton in Hin. subst to. reflexivity.
Defined.

(** X8.  No stage cancels an item or takes a cancellation back: an item
    that is canceled stays canceled whatever happens next, and an item
    becomes canceled only through a cancellation request that found its
    [may_be_canceled] set. *)
Theorem canceled_only_by_request ev w r :
  (canceled (items w r) = true -> canceled (items (exec ev w) r) = true) /\
  (canceled (items w r) = false ->
   canceled (items (exec ev w) r) = true ->
   ev = EvCancel r /\ may_be_canceled (items w r) = true).
Proof.
  assert (Hkeep : forall (m : M unit),
             keeps m -> canceled (items (snd (m w)) r) = canceled (items w r)).
  { intros m Hk. destruct (Hk w) as (_ & _ & Hf). by destruct (Hf r). }
  assert (Hproc : forall ctl t r0 w0,
             canceled (items (snd (process ctl t r0 w0)) r) = canceled (items w0 r)).
  { intros ctl t r0 w0.
    destruct (process_sched ctl t r0 w0) as [[_ Hf] | (_ & _ & _ & _ & Hc)].
    - by destruct (Hf r).
    - apply Hc. }
  assert (Hsame : (forall r0, ev <> EvCancel r0) ->
                  canceled (items (exec ev w) r) = canceled (items w r)).
  { intros Hne. unfold exec. destruct ev; cbn [run].
    - rewrite enqueue_unfold, Hproc.
      destruct (enqueue_prefix_quiet descr t r0 w) as (_ & _ & Hf). by destruct (Hf r).
    - unfold fire. destruct (timeouts w !! i) as [to |]; [| reflexivity].
      rewrite retry_unfold. change (items (drop_timeout i w)) with (items w).
      destruct (canceled (items w (to_item to))); [reflexivity |].
      rewrite Hproc. simpl. by destruct (decide (r = to_item to)).
    - by destruct (Hne r0).
    - apply Hkeep, keeps_StartHeartbeat.
    - apply Hkeep, keeps_tick.
    - apply Hkeep, keeps_SetFetchDepth.
    - apply Hkeep, keeps_PreparePaths.
    - apply Hkeep, keeps_WriteInfo.
    - apply Hkeep, keeps_MoveFiles.
    - apply Hkeep, keeps_StopHeartbeat. }
  assert (Hcancel : forall r0,
             canceled (items (exec (EvCancel r0) w) r) =
             if decide (r = r0) then
               (may_be_canceled (items w r) || canceled (items w r))
             else canceled (items w r)).
  { intros r0. unfold exec. cbn [run]. unfold cancel.
    destruct (decide (r = r0)) as [<- | Hne].
    - destruct (may_be_canceled (items w r)) eqn:Hm; simpl.
      + by destruct (decide (r = r)).
      + reflexivity.
    - destruct (may_be_canceled (items w r0)); simpl; [| reflexivity].
      by destruct (decide (r = r0)). }
  split.
  - intros Hc. destruct ev; try (rewrite Hsame; [exact Hc | discriminate]).
    rewrite Hcancel. destruct (decide (r = r0)); [| exact Hc].
    rewrite Hc. apply orb_true_r.
  - intros Hc Hc'. destruct ev; try (rewrite Hsame in Hc'; [congruence | discriminate]).
    rewrite Hcancel in Hc'. destruct (decide (r = r0)) as [<- | Hne]; [| congruence].
    rewrite Hc, orb_false_r in Hc'. auto.
Qed.

(** ** Stages that succeed *)

Lemma items_put_other r r' k v w : r' <> r -> items (put r k v w) r' = items w r'.
Proof.
  intros H. unfold put; simpl. destruct (decide (r' = r)); [contradiction | reflexivity].
Qed.

Lemma items_note_other r r' s w : r' <> r -> items (note r s w) r' = items w r'.
Proof.
  intros H. unfold note; simpl. destruct (decide (r' = r)); [contradiction | reflexivity].
Qed.

Lemma flags_put r k v w r' :
  may_be_canceled (items (put r k v w) r') = may_be_canceled (items w r') /\
  canceled (items (put r k v w) r') = canceled (items w r').
Proof. unfold put; simpl. destruct (decide (r' = r)); split; reflexivity. Qed.

Lemma flags_note r s w r' :
  may_be_canceled (items (note r s w) r') = may_be_canceled (items w r') /\
  canceled (items (note r s w) r') = canceled (items w r').
Proof. unfold note; simpl. destruct (decide (r' = r)); split; reflexivity. Qed.

(** X9.  When the controller answers and the stage has nothing to change
    (the job is not aborted, the size was recorded, the job was marked
    done), [process] completes the item and leaves everything else as it
    was: no attribute, no log line, no timeout, no flag changes. *)
Theorem plain_success_only_completes ctl t r w :
  plain_success ctl t r w ->
  process ctl t r w = (Ret tt, mark_completed (name t) r w).
Proof.
  unfold plain_success, process. destruct (body t) as [pid | | | x].
  - contradiction.
  - intros (ident & a & Hi & Ha & Ht). unfold RelabelIfAborted_process.
    do 2 step. rewrite Ht. step. apply try_complete_item.
  - intros (ident & p & Hi & Hp & Hs). unfold SetWarcFileSizeInRedis_process.
    do 3 step. apply try_complete_item.
  - intros Hd. unfold MarkItemAsDone_process.
    eapply try_run; [reflexivity | cbv beta].
    step. apply try_complete_item.
Qed.

Lemma plain_success_only_completes_witness :
  process serving_control RelabelIfAborted 0%nat prepared_world =
  (Ret tt, mark_completed "RelabelIfAborted" 0%nat prepared_world).
Proof.
  apply (plain_success_only_completes serving_control RelabelIfAborted 0%nat
           prepared_world).
  exists (VStr "abc123"), (VBool false). repeat split; vm_compute; reflexivity.
Defined.

(** X10.  A successful reservation writes the nine job attributes and
    nothing else: every other attribute of the item, the item's
    cancellation flags and every other item are as they were. *)
Theorem reservation_writes_job_attributes_only ctl pid t r w ident job_data s :
  body t = BGetItemFromQueue pid ->
  reserve_job ctl pid = Ret (ident, job_data) ->
  ident <> VNone ->
  py_str ident = Some s ->
  exists w',
    process ctl t r w = (Ret tt, w') /\
    (forall k, k ∉ job_attributes ->
               properties (items w' r) !! k = properties (items w r) !! k) /\
    may_be_canceled (items w' r) = may_be_canceled (items w r) /\
    canceled (items w' r) = canceled (items w r) /\
    (forall r', r' <> r -> items w' r' = items w r') /\
    timers w' = timers w /\ fs_trace w' = fs_trace w.
Proof.
  intros Hb Hres Hne Hs. unfold process. rewrite Hb.
  unfold GetItemFromQueue_process. rewrite try_call_bind, Hres. simpl.
  assert (Hn : is_none ident = false) by (destruct ident; [contradiction | reflexivity ..]).
  rewrite Hn. eexists. split.
  - do 11 step. apply try_complete_item.
  - split; [| split; [| split; [| split]]].
    + intros k Hk. autorewrite with world.
      unfold job_attributes in Hk.
      rewrite !lookup_insert_ne; [reflexivity | ..]; intros <-; apply Hk; set_solver.
    + rewrite items_mark_completed.
      repeat first [rewrite (proj1 (flags_put _ _ _ _ _))
                   | rewrite (proj1 (flags_note _ _ _ _))]. reflexivity.
    + rewrite items_mark_completed.
      repeat first [rewrite (proj2 (flags_put _ _ _ _ _))
                   | rewrite (proj2 (flags_note _ _ _ _))]. reflexivity.
    + intros r' Hr'. rewrite items_mark_completed.
      repeat first [rewrite (items_put_other _ _ _ _ _ Hr')
                   | rewrite (items_note_other _ _ _ _ Hr')]. reflexivity.
    + fields. split; reflexivity.
Qed.

Lemma reservation_writes_job_attributes_only_witness :
  exists w',
    process busy_control (GetItemFromQueue "p1" 5) 0%nat blank_world = (Ret tt, w') /\
    (forall k, k ∉ job_attributes ->
               properties (items w' 0%nat) !! k = properties (items blank_world 0%nat) !! k) /\
    may_be_canceled (items w' 0%nat) = may_be_canceled (items blank_world 0%nat) /\
    canceled (items w' 0%nat) = canceled (items blank_world 0%nat) /\
    (forall r', r' <> 0%nat -> items w' r' = items blank_world r') /\
    timers w' = timers blank_world /\ fs_trace w' = fs_trace blank_world.
Proof.
  apply (reservation_writes_job_attributes_only busy_control "p1"
           (GetItemFromQueue "p1" 5) 0%nat blank_world (VStr "abc123") example_job
           "abc123").
  - reflexivity.
  - reflexivity.
  - discriminate.
  - reflexivity.
Defined.



(** ** The heartbeat *)

(** X12.  A heartbeat can always be started and then stopped:
    [StartHeartbeat] creates a running timer of period 1000 ms for the item
    and stores its handle; [StopHeartbeat] then stops that timer and
    removes the handle, logging no warning. *)
Theorem heartbeat_start_then_stop r w :
  exists w1 w2,
    StartHeartbeat_process r w = (Ret tt, w1) /\
    properties (items w1 r) !! "heartbeat" = Some (VTimer (length (timers w))) /\
    timers w1 = (timers w ++ [mkTimer r 1000 true])%list /\
    StopHeartbeat_process r w1 = (Ret tt, w2) /\
    timers w2 = (timers w ++ [mkTimer r 1000 false])%list /\
    properties (items w2 r) = delete "heartbeat" (properties (items w r)) /\
    output (items w2 r) = output (items w r).
Proof.
  assert (Hon : forall b b',
             alter (set_running b) (length (timers w))
               (timers w ++ [mkTimer r 1000 b'])%list =
             (timers w ++ [mkTimer r 1000 b])%list).
  { intros b b'. rewrite <- (Nat.add_0_r (length (timers w))).
    rewrite alter_app_r. reflexivity. }
  eexists _, _. split; [reflexivity |].
  split; [fields; autorewrite with world; apply lookup_insert_eq |].
  split; [fields; apply Hon |].
  assert (Hh : properties
                 (items (switch true (length (timers w))
                    (put r "heartbeat" (VTimer (length (timers w)))
                       {| items := items w; timeouts := timeouts w;
                          timers := (timers w ++ [mkTimer r 1000 false])%list;
                          started := started w; completed := completed w;
                          fs_trace := fs_trace w |})) r) !! "heartbeat" =
               Some (VTimer (length (timers w)))).
  { autorewrite with world. apply lookup_insert_eq. }
  split.
  - unfold StopHeartbeat_process.
    eapply bind_run; [eapply contains_some; exact Hh | cbv beta iota].
    eapply bind_run; [apply getitem_some; exact Hh | cbv beta iota].
    eapply bind_run; [reflexivity | cbv beta iota].
    unfold delitem. autorewrite with world.
    rewrite lookup_insert_eq. reflexivity.
  - autorewrite with world. fields. rewrite Hon.
    split; [apply Hon |]. split; [| reflexivity].
    cbn [items]. apply delete_insert_eq.
Qed.

(** X13.  A tick of a running heartbeat reports the [ident] the item holds
    at that moment, raising [KeyError] when it holds none yet; whatever the
    controller answers, the tick changes nothing and schedules nothing. *)
Theorem tick_reports_current_ident ctl id tm w :
  timers w !! id = Some tm ->
  tm_running tm = true ->
  tick ctl id w =
    (match properties (items w (tm_item tm)) !! "ident" with
     | Some ident => heartbeat ctl ident
     | None => Raise (KeyError "ident")
     end, w).
Proof.
  intros Ht Hr. unfold tick. rewrite Ht, Hr.
  unfold send_heartbeat, bind, getitem, call.
  destruct (properties (items w (tm_item tm)) !! "ident"); reflexivity.
Qed.

Lemma tick_reports_current_ident_witness :
  tick lost_control 0 prepared_world = (Raise ConnectionError, prepared_world).
Proof.
  apply (tick_reports_current_ident lost_control 0%nat (mkTimer 0%nat 1000 true)
           prepared_world).
  - reflexivity.
  - reflexivity.
Defined.

(** X14.  Once [StopHeartbeat] has stopped the timer an item holds, that
    timer never reports again: every later tick of it does nothing. *)
Theorem stopped_heartbeat_never_reports r id w :
  properties (items w r) !! "heartbeat" = Some (VTimer id) ->
  exists w',
    StopHeartbeat_process r w = (Ret tt, w') /\
    forall ctl, tick ctl id w' = (Ret tt, w').
Proof.
  intros Hh. eexists. split.
  - unfold StopHeartbeat_process.
    eapply bind_run; [eapply contains_some; exact Hh | cbv beta iota].
    do 2 step. unfold delitem. autorewrite with world. rewrite Hh. reflexivity.
  - intros ctl. unfold tick. fields.
    rewrite list_lookup_alter_eq.
    destruct (timers w !! id) as [tm |]; reflexivity.
Qed.

Lemma stopped_heartbeat_never_reports_witness :
  exists w',
    StopHeartbeat_process 0%nat prepared_world = (Ret tt, w') /\
    forall ctl, tick ctl 0%nat w' = (Ret tt, w').
Proof.
  apply (stopped_heartbeat_never_reports 0%nat 0%nat prepared_world).
  vm_compute. reflexivity.
Defined.

Lemma ka_ret a {A} (x : A) : keeps_attribute a (ret x).
Proof. intros w. split; [reflexivity | intros; reflexivity]. Qed.

Lemma ka_raise a {A} e : keeps_attribute a (@raise A e).
Proof. intros w. split; [reflexivity | intros; reflexivity]. Qed.

Lemma ka_call a {A} (x : Result A) : keeps_attribute a (call x).
Proof. intros w. split; [reflexivity | intros; reflexivity]. Qed.

Lemma ka_read a {A} (f : World -> A) : keeps_attribute a (fun w => (Ret (f w), w)).
Proof. intros w. split; [reflexivity | intros; reflexivity]. Qed.

Lemma ka_bind a {A B} (m : M A) (k : A -> M B) :
  keeps_attribute a m -> (forall x, keeps_attribute a (k x)) ->
  keeps_attribute a (bind m k).
Proof.
  intros Hm Hk w. unfold bind. specialize (Hm w).
  destruct (m w) as [[x | e] w1]; simpl in *; [| exact Hm].
  destruct Hm as [Ht Hp], (Hk x w1) as [Ht' Hp']. split; [congruence |].
  intros r. by rewrite Hp', Hp.
Qed.

Lemma ka_try a {A} (m h : M A) :
  keeps_attribute a m -> keeps_attribute a h ->
  keeps_attribute a (try_except_ConnectionError m h).
Proof.
  intros Hm Hh w. unfold try_except_ConnectionError. specialize (Hm w).
  destruct (m w) as [[x | e] w1]; simpl in *; [exact Hm |].
  destruct e; try exact Hm.
  destruct Hm as [Ht Hp], (Hh w1) as [Ht' Hp']. split; [congruence |].
  intros r. by rewrite Hp', Hp.
Qed.

Lemma ka_upd_item a r f :
  (forall it, properties (f it) !! a = properties it !! a) ->
  keeps_attribute a (fun w => (Ret tt, upd_item r f w)).
Proof.
  intros Hf w. split; [reflexivity |]. intros r'. simpl.
  destruct (decide (r' = r)); [apply Hf | reflexivity].
Qed.

Lemma ka_getitem a r k : keeps_attribute a (getitem r k).
Proof.
  intros w. unfold getitem.
  destruct (properties (items w r) !! k); split; reflexivity || (intros; reflexivity).
Qed.

Lemma ka_setitem a r k v : k <> a -> keeps_attribute a (setitem r k v).
Proof. intros Hk. apply ka_upd_item. intros it. simpl. by apply lookup_insert_ne. Qed.

Lemma ka_contains a r k : keeps_attribute a (contains r k).
Proof. intros w. split; [reflexivity | intros; reflexivity]. Qed.

Lemma ka_log_output a r s : keeps_attribute a (log_output r s).
Proof. apply ka_upd_item. reflexivity. Qed.

Lemma ka_assign_may_be_canceled a r b : keeps_attribute a (assign_may_be_canceled r b).
Proof. apply ka_upd_item. reflexivity. Qed.

Lemma ka_fmt a v : keeps_attribute a (fmt v).
Proof. unfold fmt. destruct (py_str v); [apply ka_ret | apply ka_raise]. Qed.

Lemma ka_fmt_key a r k : keeps_attribute a (fmt_key r k).
Proof. apply ka_bind; [apply ka_getitem | intros; apply ka_fmt]. Qed.

Lemma ka_start_item a t r : keeps_attribute a (start_item t r).
Proof. intros w. split; [reflexivity | intros; reflexivity]. Qed.

Lemma ka_complete_item a nm r : keeps_attribute a (complete_item nm r).
Proof. intros w. split; [reflexivity | intros; reflexivity]. Qed.

Lemma ka_add_timeout a d t r : keeps_attribute a (add_timeout d t r).
Proof. intros w. split; [reflexivity | intros; reflexivity]. Qed.

Lemma ka_fs_do a fs op : keeps_attribute a (fs_do fs op).
Proof.
  intros w. unfold fs_do.
  destruct (fs_fault fs op); split; reflexivity || (intros; reflexivity).
Qed.

Lemma ka_slice a v : keeps_attribute a (slice_0_5 v).
Proof. destruct v; try apply ka_raise. apply ka_ret. Qed.

Lemma ka_json_dumps a v : keeps_attribute a (json_dumps v).
Proof. apply ka_call. Qed.

Create HintDb attribute.
#[local] Hint Resolve ka_ret ka_raise ka_call ka_getitem ka_contains ka_log_output
  ka_assign_may_be_canceled ka_fmt ka_fmt_key ka_start_item ka_complete_item
  ka_add_timeout ka_fs_do ka_slice ka_json_dumps : attribute.

(** Walks through a block of stage code that does not write the attribute
    in question. *)
Ltac ka_tac :=
  repeat first
    [ apply ka_bind; [| intros ]
    | apply ka_try
    | apply ka_setitem; discriminate
    | match goal with
      | |- keeps_attribute _ (if ?b then _ else _) => destruct b
      | |- keeps_attribute _ (fun w => (Ret _, w)) => apply ka_read
      end
    | solve [ auto with attribute ] ].

Lemma ka_lookup a {A} (m : M A) w r :
  keeps_attribute a m ->
  properties (items (snd (m w)) r) !! a = properties (items w r) !! a.
Proof. intros Hk. by destruct (Hk w) as [_ Hp]. Qed.

Lemma hb_set_target_paths r : keeps_attribute "heartbeat" (set_target_paths r).
Proof. unfold set_target_paths. ka_tac. Qed.

Lemma hb_process ctl t r : keeps_attribute "heartbeat" (process ctl t r).
Proof.
  pose proof (hb_set_target_paths r).
  unfold process, GetItemFromQueue_process, RelabelIfAborted_process,
    SetWarcFileSizeInRedis_process, MarkItemAsDone_process, on_connection_error,
    notify_connection_error, notify_retry, schedule_retry.
  destruct (body t); ka_tac.
Qed.

Lemma hb_preserved {A} (m : M A) w :
  keeps_attribute "heartbeat" m -> heartbeat_ok w -> heartbeat_ok (snd (m w)).
Proof.
  intros Hk Hok r id Hh. destruct (Hk w) as [Ht Hp].
  rewrite Hp in Hh. rewrite Ht. by apply Hok.
Qed.


Lemma heartbeat_ok_blank_world : heartbeat_ok blank_world.
Proof. intros r id Hh. vm_compute in Hh. discriminate. Qed.


(** ** The filesystem stages *)

Lemma PreparePaths_run fs now r w dir d i slug s :
  properties (items w r) !! "data_dir" = Some dir ->
  py_str dir = Some d ->
  properties (items w r) !! "ident" = Some (VStr i) ->
  properties (items w r) !! "slug" = Some slug ->
  py_str slug = Some s ->
  (isdir fs (d +:+ "/" +:+ i) = true ->
   fs_fault fs (FsRmtree (VStr (d +:+ "/" +:+ i))) = None) ->
  fs_fault fs (FsMakedirs (VStr (d +:+ "/" +:+ i))) = None ->
  PreparePaths_process fs now r w =
  (Ret tt,
   paths_written r d (d +:+ "/" +:+ i)
     (s +:+ "-" +:+ strftime_stamp now +:+ "-" +:+ String.substring 0 5 i)
     (directory_reset fs (d +:+ "/" +:+ i) w)).
Proof.
  intros Hdir Hsd Hi Hslug Hss Hrm Hmk.
  unfold PreparePaths_process, set_target_paths, paths_written, directory_reset.
  assert (Hsi : py_str (VStr i) = Some i) by reflexivity.
  destruct (isdir fs (d +:+ "/" +:+ i)) eqn:Hd.
  - specialize (Hrm eq_refl). do 4 step. rewrite Hd. do 14 step. fact.
  - do 4 step. rewrite Hd. do 14 step. fact.
Qed.

Lemma props_paths_written r d dir base w :
  properties (items (paths_written r d dir base w) r) =
  <["target_info_file" := VStr (d +:+ "/" +:+ base +:+ ".json")]>
    (<["target_warc_file" := VStr (d +:+ "/" +:+ base +:+ ".warc.gz")]>
       (<["cookie_jar" := VStr (dir +:+ "/cookies.txt")]>
          (<["source_info_file" := VStr (dir +:+ "/" +:+ base +:+ ".json")]>
             (<["source_warc_file" := VStr (dir +:+ "/" +:+ base +:+ ".warc.gz")]>
                (<["warc_file_base" := VStr base]>
                   (<["item_dir" := VStr dir]> (properties (items w r)))))))).
Proof. unfold paths_written. by autorewrite with world. Qed.

Lemma items_directory_reset fs dir w : items (directory_reset fs dir w) = items w.
Proof. unfold directory_reset. by destruct (isdir fs dir). Qed.

(** X16.  [PreparePaths] resets the working directory before it writes
    anything: it removes the directory when one is there, then makes it,
    in that order, and touches nothing else on the filesystem; of the
    item's attributes only the seven paths change. *)
Theorem prepare_paths_resets_directory fs now r w dir d i slug s :
  properties (items w r) !! "data_dir" = Some dir ->
  py_str dir = Some d ->
  properties (items w r) !! "ident" = Some (VStr i) ->
  properties (items w r) !! "slug" = Some slug ->
  py_str slug = Some s ->
  (isdir fs (d +:+ "/" +:+ i) = true ->
   fs_fault fs (FsRmtree (VStr (d +:+ "/" +:+ i))) = None) ->
  fs_fault fs (FsMakedirs (VStr (d +:+ "/" +:+ i))) = None ->
  exists w',
    PreparePaths_process fs now r w = (Ret tt, w') /\
    fs_trace w' =
      (fs_trace w ++
       (if isdir fs (d +:+ "/" +:+ i) then [FsRmtree (VStr (d +:+ "/" +:+ i))] else []) ++
       [FsMakedirs (VStr (d +:+ "/" +:+ i))])%list /\
    (forall k, k ∉ path_attributes ->
               properties (items w' r) !! k = properties (items w r) !! k) /\
    output (items w' r) = output (items w r).
Proof.
  intros Hdir Hsd Hi Hslug Hss Hrm Hmk.
  eexists.
  split; [by apply (PreparePaths_run fs now r w dir d i slug s) |]. split; [| split].
  - unfold paths_written, directory_reset. fields.
    destruct (isdir fs (d +:+ "/" +:+ i)); simpl; by rewrite <- ?app_assoc.
  - intros k Hk. rewrite props_paths_written, items_directory_reset.
    unfold path_attributes in Hk.
    rewrite !lookup_insert_ne; [reflexivity | ..]; intros <-; apply Hk; set_solver.
  - unfold paths_written. autorewrite with world. by rewrite items_directory_reset.
Qed.

Lemma prepare_paths_resets_directory_witness :
  exists w',
    PreparePaths_process used_fs example_time 0%nat reserved_world = (Ret tt, w') /\
    fs_trace w' = [FsRmtree (VStr "/data/abc123"); FsMakedirs (VStr "/data/abc123")] /\
    (forall k, k ∉ path_attributes ->
               properties (items w' 0%nat) !! k =
               properties (items reserved_world 0%nat) !! k) /\
    output (items w' 0%nat) = output (items reserved_world 0%nat).
Proof.
  apply (prepare_paths_resets_directory used_fs example_time 0%nat reserved_world
           (VStr "/data") "/data" "abc123" (VStr "example") "example").
  1-5, 7: vm_compute; reflexivity.
  intros _. reflexivity.
Defined.

(** X17.  [PreparePaths] writes no attribute unless the working directory
    was made: when removing the old directory or making the new one fails,
    the stage raises that failure and the item is as it was. *)
Theorem prepare_paths_fails_before_writing fs now r w dir d i e :
  properties (items w r) !! "data_dir" = Some dir ->
  py_str dir = Some d ->
  properties (items w r) !! "ident" = Some (VStr i) ->
  (isdir fs (d +:+ "/" +:+ i) = true /\
   fs_fault fs (FsRmtree (VStr (d +:+ "/" +:+ i))) = Some e) \/
  ((isdir fs (d +:+ "/" +:+ i) = true ->
    fs_fault fs (FsRmtree (VStr (d +:+ "/" +:+ i))) = None) /\
   fs_fault fs (FsMakedirs (VStr (d +:+ "/" +:+ i))) = Some e) ->
  exists w',
    PreparePaths_process fs now r w = (Raise e, w') /\
    items w' = items w /\
    forall op, op ∈ fs_trace w' -> op ∈ fs_trace w \/ op = FsRmtree (VStr (d +:+ "/" +:+ i)).
Proof.
  intros Hdir Hsd Hi Hfault.
  assert (Hsi : py_str (VStr i) = Some i) by reflexivity.
  unfold PreparePaths_process.
  assert (Hfail : forall op w0, fs_fault fs op = Some e -> fs_do fs op w0 = (Raise e, w0)).
  { intros op w0 H. unfold fs_do. by rewrite H. }
  destruct Hfault as [[Hd Hrm] | [Hrm Hmk]].
  - exists w. split; [| split; [reflexivity | auto]].
    do 4 step. rewrite Hd. unfold bind at 1. by rewrite (Hfail _ _ Hrm).
  - destruct (isdir fs (d +:+ "/" +:+ i)) eqn:Hd.
    + specialize (Hrm eq_refl). eexists. split; [| split].
      * do 4 step. rewrite Hd. step. unfold bind at 1. by rewrite (Hfail _ _ Hmk).
      * reflexivity.
      * intros op Hop. cbn [fs_trace record_fs] in Hop.
        apply elem_of_app in Hop as [Hop | Hop]; [by left |].
        apply list_elem_of_singleton in Hop. by right.
    + exists w. split; [| split; [reflexivity | auto]].
      do 4 step. rewrite Hd. step. unfold bind at 1. by rewrite (Hfail _ _ Hmk).
Qed.

Lemma prepare_paths_fails_before_writing_witness :
  exists w',
    PreparePaths_process full_fs example_time 0%nat reserved_world = (Raise OSError, w') /\
    items w' = items reserved_world /\
    forall op, op ∈ fs_trace w' ->
               op ∈ fs_trace reserved_world \/ op = FsRmtree (VStr "/data/abc123").
Proof.
  apply (prepare_paths_fails_before_writing full_fs example_time 0%nat reserved_world
           (VStr "/data") "/data" "abc123" OSError).
  1-3: vm_compute; reflexivity.
  right. split; [discriminate | reflexivity].
Defined.

(** X18.  Path derivation is idempotent: run again at the same time on its
    own result, [PreparePaths] derives the same paths and leaves the item's
    attributes exactly as its first run left them. *)
Theorem prepare_paths_idempotent fs1 fs2 now r w dir d i slug s :
  properties (items w r) !! "data_dir" = Some dir ->
  py_str dir = Some d ->
  properties (items w r) !! "ident" = Some (VStr i) ->
  properties (items w r) !! "slug" = Some slug ->
  py_str slug = Some s ->
  (forall op, fs_fault fs1 op = None) ->
  (forall op, fs_fault fs2 op = None) ->
  exists w1 w2,
    PreparePaths_process fs1 now r w = (Ret tt, w1) /\
    PreparePaths_process fs2 now r w1 = (Ret tt, w2) /\
    properties (items w2 r) = properties (items w1 r).
Proof.
  intros Hdir Hsd Hi Hslug Hss Hfs1 Hfs2.
  eexists _, _.
  split; [apply (PreparePaths_run fs1 now r w dir d i slug s); auto |].
  split.
  - apply (PreparePaths_run fs2 now r _ dir d i slug s); auto;
      rewrite props_paths_written, items_directory_reset;
      rewrite !lookup_insert_ne by discriminate; assumption.
  - rewrite (props_paths_written r d _ _ (directory_reset fs2 _ _)).
    rewrite items_directory_reset.
    rewrite props_paths_written, items_directory_reset.
    repeat (rewrite insert_id;
            [| repeat (rewrite lookup_insert_ne by discriminate);
               apply lookup_insert_eq]).
    reflexivity.
Qed.

Lemma prepare_paths_idempotent_witness :
  exists w1 w2,
    PreparePaths_process sound_fs example_time 0%nat reserved_world = (Ret tt, w1) /\
    PreparePaths_process used_fs example_time 0%nat w1 = (Ret tt, w2) /\
    properties (items w2 0%nat) = properties (items w1 0%nat).
Proof.
  apply (prepare_paths_idempotent sound_fs used_fs example_time 0%nat reserved_world
           (VStr "/data") "/data" "abc123" (VStr "example") "example").
  1-5: vm_compute; reflexivity.
  - intros op. reflexivity.
  - intros op. reflexivity.
Defined.

Lemma substring_whole n s : (String.length s <= n)%nat -> String.substring 0 n s = s.
Proof.
  revert n. induction s as [| c s IH]; intros [| n] Hn; simpl in *;
    try reflexivity; try lia.
  f_equal. apply IH. lia.
Qed.

Lemma substring_length n s :
  String.length (String.substring 0 n s) = Nat.min n (String.length s).
Proof.
  revert n. induction s as [| c s IH]; intros [| n]; simpl; try reflexivity.
  by rewrite IH.
Qed.

Lemma substring_prefix n s : String.prefix (String.substring 0 n s) s = true.
Proof.
  revert n. induction s as [| c s IH]; intros [| n]; simpl; try reflexivity.
  destruct (ascii_dec c c); [apply IH | contradiction].
Qed.

(** X19.  The base name ends with at most five characters of [ident], taken
    from its start; an [ident] of five characters or fewer is used whole,
    and the stage does not fail on it. *)
Theorem prepare_paths_takes_up_to_five fs now r w dir d i slug s :
  properties (items w r) !! "data_dir" = Some dir ->
  py_str dir = Some d ->
  properties (items w r) !! "ident" = Some (VStr i) ->
  properties (items w r) !! "slug" = Some slug ->
  py_str slug = Some s ->
  (forall op, fs_fault fs op = None) ->
  exists w' tail,
    PreparePaths_process fs now r w = (Ret tt, w') /\
    properties (items w' r) !! "warc_file_base" =
      Some (VStr (s +:+ "-" +:+ strftime_stamp now +:+ "-" +:+ tail)) /\
    String.length tail = Nat.min 5 (String.length i) /\
    String.prefix tail i = true /\
    ((String.length i <= 5)%nat -> tail = i).
Proof.
  intros Hdir Hsd Hi Hslug Hss Hfs.
  eexists _, (String.substring 0 5 i).
  split; [apply (PreparePaths_run fs now r w dir d i slug s); auto |].
  split; [rewrite props_paths_written; by simplify_map_eq |].
  split; [apply substring_length |].
  split; [apply substring_prefix | apply substring_whole].
Qed.

Lemma prepare_paths_takes_up_to_five_witness :
  exists w' tail,
    PreparePaths_process sound_fs example_time 0%nat
      (put 0%nat "ident" (VStr "ab") reserved_world) = (Ret tt, w') /\
    properties (items w' 0%nat) !! "warc_file_base" =
      Some (VStr ("example" +:+ "-" +:+ strftime_stamp example_time +:+ "-" +:+ tail)) /\
    String.length tail = Nat.min 5 (String.length "ab") /\
    String.prefix tail "ab" = true /\
    ((String.length "ab" <= 5)%nat -> tail = "ab").
Proof.
  apply (prepare_paths_takes_up_to_five sound_fs example_time 0%nat
           (put 0%nat "ident" (VStr "ab") reserved_world)
           (VStr "/data") "/data" "ab" (VStr "example") "example").
  1-5: vm_compute; reflexivity.
  intros op. reflexivity.
Defined.



(** X21.  [MoveFiles] renames the WARC file, then the info file, then
    removes the working directory, in that order, and changes no attribute
    of the item. *)
Theorem move_files_in_order fs r w sw tw si ti dir d :
  properties (items w r) !! "source_warc_file" = Some sw ->
  properties (items w r) !! "target_warc_file" = Some tw ->
  properties (items w r) !! "source_info_file" = Some si ->
  properties (items w r) !! "target_info_file" = Some ti ->
  properties (items w r) !! "item_dir" = Some dir ->
  py_str dir = Some d ->
  fs_fault fs (FsRename sw tw) = None ->
  fs_fault fs (FsRename si ti) = None ->
  fs_fault fs (FsRmtree (VStr d)) = None ->
  exists w',
    MoveFiles_process fs r w = (Ret tt, w') /\
    fs_trace w' =
      (fs_trace w ++ [FsRename sw tw; FsRename si ti; FsRmtree (VStr d)])%list /\
    items w' = items w.
Proof.
  intros Hsw Htw Hsi Hti Hdir Hsd Hr1 Hr2 Hrm.
  unfold MoveFiles_process. eexists. split.
  - do 7 step. fact.
  - split; [| reflexivity]. fields. by rewrite <- !app_assoc.
Qed.

Lemma move_files_in_order_witness :
  exists w',
    MoveFiles_process sound_fs 0%nat prepared_world = (Ret tt, w') /\
    fs_trace w' =
      (fs_trace prepared_world ++
       [FsRename (VStr "/data/abc123/example-20140307-090500-abc12.warc.gz")
                 (VStr "/data/example-20140307-090500-abc12.warc.gz");
        FsRename (VStr "/data/abc123/example-20140307-090500-abc12.json")
                 (VStr "/data/example-20140307-090500-abc12.json");
        FsRmtree (VStr "/data/abc123")])%list /\
    items w' = items prepared_world.
Proof.
  apply (move_files_in_order sound_fs 0%nat prepared_world
           (VStr "/data/abc123/example-20140307-090500-abc12.warc.gz")
           (VStr "/data/example-20140307-090500-abc12.warc.gz")
           (VStr "/data/abc123/example-20140307-090500-abc12.json")
           (VStr "/data/example-20140307-090500-abc12.json")
           (VStr "/data/abc123") "/data/abc123");
    vm_compute; reflexivity.
Defined.

(** X22.  [MoveFiles] does not undo a half-done move: when the second
    rename fails after the first went through, the stage raises that
    failure with the WARC file at its target, the info file still in the
    working directory, and the working directory not removed. *)
Theorem move_files_half_done fs r w sw tw si ti e :
  properties (items w r) !! "source_warc_file" = Some sw ->
  properties (items w r) !! "target_warc_file" = Some tw ->
  properties (items w r) !! "source_info_file" = Some si ->
  properties (items w r) !! "target_info_file" = Some ti ->
  fs_fault fs (FsRename sw tw) = None ->
  fs_fault fs (FsRename si ti) = Some e ->
  MoveFiles_process fs r w = (Raise e, record_fs (FsRename sw tw) w).
Proof.
  intros Hsw Htw Hsi Hti Hr1 Hr2.
  unfold MoveFiles_process. do 5 step.
  unfold bind at 1, fs_do. by rewrite Hr2.
Qed.

Lemma move_files_half_done_witness :
  MoveFiles_process half_fs 0%nat prepared_world =
  (Raise OSError,
   record_fs (FsRename (VStr "/data/abc123/example-20140307-090500-abc12.warc.gz")
                       (VStr "/data/example-20140307-090500-abc12.warc.gz"))
     prepared_world).
Proof.
  apply (move_files_half_done half_fs 0%nat prepared_world
           (VStr "/data/abc123/example-20140307-090500-abc12.warc.gz")
           (VStr "/data/example-20140307-090500-abc12.warc.gz")
           (VStr "/data/abc123/example-20140307-090500-abc12.json")
           (VStr "/data/example-20140307-090500-abc12.json") OSError);
    vm_compute; reflexivity.
Defined.

(** ** Options and metadata *)

(** X23.  [SetFetchDepth] needs [fetch_depth] and writes only its three
    options: without the attribute it raises [KeyError] and changes
    nothing; with it, every attribute but [recursive], [level] and [depth]
    stays as it was, [fetch_depth] among them, so that a second run finds
    the same input and leaves the item's attributes as the first run left
    them. *)
Theorem set_fetch_depth_writes_options_only r w :
  (properties (items w r) !! "fetch_depth" = None ->
   SetFetchDepth_process r w = (Raise (KeyError "fetch_depth"), w)) /\
  (forall depth,
     properties (items w r) !! "fetch_depth" = Some depth ->
     exists w1 w2,
       SetFetchDepth_process r w = (Ret tt, w1) /\
       (forall k, k ∉ depth_attributes ->
                  properties (items w1 r) !! k = properties (items w r) !! k) /\
       SetFetchDepth_process r w1 = (Ret tt, w2) /\
       properties (items w2 r) = properties (items w1 r)).
Proof.
  split.
  - intros Hn. unfold SetFetchDepth_process, bind. by rewrite (getitem_none _ _ _ Hn).
  - intros depth Hd. unfold SetFetchDepth_process.
    destruct (eq_str depth "shallow") eqn:He.
    + eexists _, _. split; [step; rewrite He; do 2 step; fact |].
      split.
      { intros k Hk. autorewrite with world. unfold depth_attributes in Hk.
        rewrite !lookup_insert_ne; [reflexivity | ..]; intros <-; apply Hk; set_solver. }
      split; [step; rewrite He; do 2 step; fact |].
      autorewrite with world.
      repeat (rewrite insert_id;
              [| repeat (rewrite lookup_insert_ne by discriminate);
                 apply lookup_insert_eq]).
      reflexivity.
    + eexists _, _. split; [step; rewrite He; do 2 step; fact |].
      split.
      { intros k Hk. autorewrite with world. unfold depth_attributes in Hk.
        rewrite !lookup_insert_ne; [reflexivity | ..]; intros <-; apply Hk; set_solver. }
      split; [step; rewrite He; do 2 step; fact |].
      autorewrite with world.
      repeat (rewrite insert_id;
              [| repeat (rewrite lookup_insert_ne by discriminate);
                 apply lookup_insert_eq]).
      reflexivity.
Qed.

(** Finds an element in a list given in full. *)
Ltac in_list :=
  repeat first [ apply list_elem_of_here | apply list_elem_of_further ].

Lemma aborted_or_false {B} r (k : PyVal -> M B) w :
  bind (contains r "aborted")
    (fun present : bool =>
       bind (if present then getitem r "aborted" else ret (VBool false)) k) w =
  k (default (VBool false) (properties (items w r) !! "aborted")) w.
Proof.
  destruct (properties (items w r) !! "aborted") as [a |] eqn:Ha.
  - eapply bind_run; [eapply contains_some; exact Ha | cbv beta iota].
    eapply bind_run; [apply getitem_some; exact Ha | reflexivity].
  - eapply bind_run; [eapply contains_none; exact Ha | reflexivity].
Qed.

(** X24.  [WriteInfo] writes nothing unless the item has every attribute
    of the record: when one of [fetch_depth], [pipeline_id], [queued_at],
    [started_by], [started_in], [url] is missing, the stage raises
    [KeyError] for a missing one, and neither the item nor the filesystem
    is touched. *)
Theorem write_info_needs_every_attribute fs r w k :
  k ∈ info_inputs ->
  properties (items w r) !! k = None ->
  exists k',
    k' ∈ info_inputs /\ properties (items w r) !! k' = None /\
    WriteInfo_process fs r w = (Raise (KeyError k'), w).
Proof.
  intros Hk Hn. unfold WriteInfo_process. rewrite aborted_or_false.
  assert (Hmiss : forall k0 (f : PyVal -> M unit) w0,
             properties (items w0 r) !! k0 = None ->
             bind (getitem r k0) f w0 = (Raise (KeyError k0), w0)).
  { intros k0 f w0 H. unfold bind. by rewrite (getitem_none _ _ _ H). }
  assert (Hhave : forall k0 v (f : PyVal -> M unit) w0,
             properties (items w0 r) !! k0 = Some v ->
             bind (getitem r k0) f w0 = f v w0).
  { intros k0 v f w0 H. unfold bind. by rewrite (getitem_some _ _ _ _ H). }
  destruct (properties (items w r) !! "fetch_depth") as [v1 |] eqn:H1;
    [rewrite (Hhave _ _ _ _ H1)
    | exists "fetch_depth"; repeat split;
      [in_list | done | by apply Hmiss]].
  destruct (properties (items w r) !! "pipeline_id") as [v2 |] eqn:H2;
    [rewrite (Hhave _ _ _ _ H2)
    | exists "pipeline_id"; repeat split;
      [in_list | done | by apply Hmiss]].
  destruct (properties (items w r) !! "queued_at") as [v3 |] eqn:H3;
    [rewrite (Hhave _ _ _ _ H3)
    | exists "queued_at"; repeat split;
      [in_list | done | by apply Hmiss]].
  destruct (properties (items w r) !! "started_by") as [v4 |] eqn:H4;
    [rewrite (Hhave _ _ _ _ H4)
    | exists "started_by"; repeat split;
      [in_list | done | by apply Hmiss]].
  destruct (properties (items w r) !! "started_in") as [v5 |] eqn:H5;
    [rewrite (Hhave _ _ _ _ H5)
    | exists "started_in"; repeat split;
      [in_list | done | by apply Hmiss]].
  destruct (properties (items w r) !! "url") as [v6 |] eqn:H6;
    [| exists "url"; repeat split;
       [in_list | done | by apply Hmiss]].
  exfalso. unfold info_inputs in Hk.
  repeat (apply elem_of_cons in Hk as [-> | Hk]); try congruence.
  by apply elem_of_nil in Hk.
Qed.

Lemma write_info_needs_every_attribute_witness :
  exists k',
    k' ∈ info_inputs /\ properties (items blank_world 0%nat) !! k' = None /\
    WriteInfo_process sound_fs 0%nat blank_world = (Raise (KeyError k'), blank_world).
Proof.
  apply (write_info_needs_every_attribute sound_fs 0%nat blank_world "url").
  - in_list.
  - vm_compute. reflexivity.
Defined.

Lemma WriteInfo_reads fs r w fetch_depth pipeline_id queued_at started_by started_in
    url path :
  properties (items w r) !! "fetch_depth" = Some fetch_depth ->
  properties (items w r) !! "pipeline_id" = Some pipeline_id ->
  properties (items w r) !! "queued_at" = Some queued_at ->
  properties (items w r) !! "started_by" = Some started_by ->
  properties (items w r) !! "started_in" = Some started_in ->
  properties (items w r) !! "url" = Some url ->
  properties (items w r) !! "source_info_file" = Some path ->
  fs_fault fs (FsOpenW path) = None ->
  WriteInfo_process fs r w =
  bind (json_dumps
          (info_of (default (VBool false) (properties (items w r) !! "aborted"))
             fetch_depth pipeline_id queued_at started_by started_in url))
    (fun text => fs_do fs (FsWrite path text))
    (record_fs (FsOpenW path)
       (put r "info"
          (info_of (default (VBool false) (properties (items w r) !! "aborted"))
             fetch_depth pipeline_id queued_at started_by started_in url) w)).
Proof.
  intros Hfd Hpid Hqa Hsb Hsi Hurl Hpath Hopen.
  unfold WriteInfo_process. rewrite aborted_or_false.
  do 10 step. reflexivity.
Qed.

(** X25.  [WriteInfo] opens the info file before it serializes the record:
    when an attribute of the record cannot be shown as JSON, the stage
    raises the serializer's error with the file opened for writing and
    nothing written to it, and with the record stored under [info]. *)
Theorem write_info_opens_before_serializing fs r w fetch_depth pipeline_id queued_at
    started_by started_in url path e :
  properties (items w r) !! "fetch_depth" = Some fetch_depth ->
  properties (items w r) !! "pipeline_id" = Some pipeline_id ->
  properties (items w r) !! "queued_at" = Some queued_at ->
  properties (items w r) !! "started_by" = Some started_by ->
  properties (items w r) !! "started_in" = Some started_in ->
  properties (items w r) !! "url" = Some url ->
  properties (items w r) !! "source_info_file" = Some path ->
  fs_fault fs (FsOpenW path) = None ->
  json_encode 0
    (info_of (default (VBool false) (properties (items w r) !! "aborted"))
       fetch_depth pipeline_id queued_at started_by started_in url) = Raise e ->
  exists w',
    WriteInfo_process fs r w = (Raise e, w') /\
    fs_trace w' = (fs_trace w ++ [FsOpenW path])%list /\
    properties (items w' r) !! "info" =
      Some (info_of (default (VBool false) (properties (items w r) !! "aborted"))
              fetch_depth pipeline_id queued_at started_by started_in url).
Proof.
  intros Hfd Hpid Hqa Hsb Hsi Hurl Hpath Hopen Hjson.
  rewrite (WriteInfo_reads fs r w _ _ _ _ _ _ _ Hfd Hpid Hqa Hsb Hsi Hurl Hpath Hopen).
  eexists. split.
  - unfold bind, json_dumps, call. rewrite Hjson. reflexivity.
  - split; [reflexivity |]. autorewrite with world. apply lookup_insert_eq.
Qed.

Lemma write_info_opens_before_serializing_witness :
  exists w',
    WriteInfo_process sound_fs 0%nat odd_world = (Raise TypeError, w') /\
    fs_trace w' =
      (fs_trace odd_world ++
       [FsOpenW (VStr "/data/abc123/example-20140307-090500-abc12.json")])%list /\
    properties (items w' 0%nat) !! "info" =
      Some (info_of (default (VBool false) (properties (items odd_world 0%nat) !! "aborted"))
              (VStr "shallow") (VStr "p1") (VTimer 0) VNone VNone (VStr "http://x")).
Proof.
  apply (write_info_opens_before_serializing sound_fs 0%nat odd_world
           (VStr "shallow") (VStr "p1") (VTimer 0) VNone VNone (VStr "http://x")
           (VStr "/data/abc123/example-20140307-090500-abc12.json") TypeError);
    vm_compute; reflexivity.
Defined.

Lemma scalar_encodes level v :
  is_scalar v = true -> exists text, json_encode level v = Ret text.
Proof.
  destruct v as [| [|] | | | |]; simpl; try discriminate; eauto.
Qed.

(** X26.  A record of scalars is always written: when the attributes of the
    record are [None], booleans, integers or strings and the filesystem
    takes the two calls, [WriteInfo] returns, having opened the info file
    and written one text to it. *)
Theorem write_info_writes_scalars fs r w fetch_depth pipeline_id queued_at started_by
    started_in url path :
  properties (items w r) !! "fetch_depth" = Some fetch_depth ->
  properties (items w r) !! "pipeline_id" = Some pipeline_id ->
  properties (items w r) !! "queued_at" = Some queued_at ->
  properties (items w r) !! "started_by" = Some started_by ->
  properties (items w r) !! "started_in" = Some started_in ->
  properties (items w r) !! "url" = Some url ->
  properties (items w r) !! "source_info_file" = Some path ->
  forallb is_scalar
    [default (VBool false) (properties (items w r) !! "aborted");
     fetch_depth; pipeline_id; queued_at; started_by; started_in; url] = true ->
  (forall op, fs_fault fs op = None) ->
  exists w' text,
    WriteInfo_process fs r w = (Ret tt, w') /\
    json_encode 0
      (info_of (default (VBool false) (properties (items w r) !! "aborted"))
         fetch_depth pipeline_id queued_at started_by started_in url) = Ret text /\
    fs_trace w' = (fs_trace w ++ [FsOpenW path; FsWrite path text])%list.
Proof.
  intros Hfd Hpid Hqa Hsb Hsi Hurl Hpath Hsc Hfs.
  rewrite (WriteInfo_reads fs r w _ _ _ _ _ _ _ Hfd Hpid Hqa Hsb Hsi Hurl Hpath (Hfs _)).
  cbn [forallb] in Hsc. repeat (apply andb_prop in Hsc as [?H Hsc]).
  destruct (scalar_encodes 1 _ H) as [t0 E0], (scalar_encodes 1 _ H0) as [t1 E1],
    (scalar_encodes 1 _ H1) as [t2 E2], (scalar_encodes 1 _ H2) as [t3 E3],
    (scalar_encodes 1 _ H3) as [t4 E4], (scalar_encodes 1 _ H4) as [t5 E5],
    (scalar_encodes 1 _ H5) as [t6 E6].
  assert (Henc : exists text,
             json_encode 0
               (info_of (default (VBool false) (properties (items w r) !! "aborted"))
                  fetch_depth pipeline_id queued_at started_by started_in url) =
             Ret text).
  { unfold info_of. cbn [json_encode fst snd].
    rewrite E0, E1, E2, E3, E4, E5, E6. eauto. }
  destruct Henc as [text Henc]. eexists _, text. split; [| split; [exact Henc |]].
  - unfold json_dumps. eapply bind_run; [apply call_run; exact Henc |].
    apply fs_do_run, Hfs.
  - fields. by rewrite <- app_assoc.
Qed.

Lemma write_info_writes_scalars_witness :
  exists w' text,
    WriteInfo_process sound_fs 0%nat relabeled_world = (Ret tt, w') /\
    json_encode 0
      (info_of (default (VBool false) (properties (items relabeled_world 0%nat) !! "aborted"))
         (VStr "shallow") (VStr "p1") VNone VNone VNone (VStr "http://x")) = Ret text /\
    fs_trace w' =
      (fs_trace relabeled_world ++
       [FsOpenW (VStr "/data/abc123/example-20140307-090500-abc12.json");
        FsWrite (VStr "/data/abc123/example-20140307-090500-abc12.json") text])%list.
Proof.
  apply (write_info_writes_scalars sound_fs 0%nat relabeled_world
           (VStr "shallow") (VStr "p1") VNone VNone VNone (VStr "http://x")
           (VStr "/data/abc123/example-20140307-090500-abc12.json")).
  1-8: vm_compute; reflexivity.
  intros op. reflexivity.
Defined.

(** ** Histories *)

Lemma grows_refl w : grows w w.
Proof. repeat split; reflexivity. Qed.

Lemma grows_trans w1 w2 w3 : grows w1 w2 -> grows w2 w3 -> grows w1 w3.
Proof.
  intros (Ho1 & Hc1 & Hs1 & Hf1) (Ho2 & Hc2 & Hs2 & Hf2).
  repeat split; try (etrans; eassumption).
  intros r. etrans; [apply Ho1 | apply Ho2].
Qed.

Lemma grows_upd_item r f w :
  (forall it, output it `prefix_of` output (f it)) -> grows w (upd_item r f w).
Proof.
  intros Hf. repeat split; try reflexivity.
  intros r'. simpl. destruct (decide (r' = r)); [apply Hf | reflexivity].
Qed.

Lemma eh_ret {A} (a : A) : extends_histories (ret a).
Proof. intros w. apply grows_refl. Qed.

Lemma eh_raise {A} e : extends_histories (@raise A e).
Proof. intros w. apply grows_refl. Qed.

Lemma eh_call {A} (x : Result A) : extends_histories (call x).
Proof. intros w. apply grows_refl. Qed.

Lemma eh_read {A} (f : World -> A) : extends_histories (fun w => (Ret (f w), w)).
Proof. intros w. apply grows_refl. Qed.

Lemma eh_bind {A B} (m : M A) (k : A -> M B) :
  extends_histories m -> (forall a, extends_histories (k a)) ->
  extends_histories (bind m k).
Proof.
  intros Hm Hk w. unfold bind. specialize (Hm w).
  destruct (m w) as [[a | e] w1]; simpl in *; [| exact Hm].
  eapply grows_trans; [exact Hm | apply Hk].
Qed.

Lemma eh_try {A} (m h : M A) :
  extends_histories m -> extends_histories h ->
  extends_histories (try_except_ConnectionError m h).
Proof.
  intros Hm Hh w. unfold try_except_ConnectionError. specialize (Hm w).
  destruct (m w) as [[a | e] w1]; simpl in *; [exact Hm |].
  destruct e; try exact Hm.
  eapply grows_trans; [exact Hm | apply Hh].
Qed.

Lemma eh_getitem r k : extends_histories (getitem r k).
Proof.
  intros w. unfold getitem. destruct (properties (items w r) !! k); apply grows_refl.
Qed.

Lemma eh_setitem r k v : extends_histories (setitem r k v).
Proof. intros w. apply grows_upd_item. reflexivity. Qed.

Lemma eh_delitem r k : extends_histories (delitem r k).
Proof.
  intros w. unfold delitem. destruct (properties (items w r) !! k).
  - apply grows_upd_item. reflexivity.
  - apply grows_refl.
Qed.

Lemma eh_contains r k : extends_histories (contains r k).
Proof. intros w. apply grows_refl. Qed.

Lemma eh_log_output r s : extends_histories (log_output r s).
Proof. intros w. apply grows_upd_item. intros it. by apply prefix_app_r. Qed.

Lemma eh_assign_may_be_canceled r b : extends_histories (assign_may_be_canceled r b).
Proof. intros w. apply grows_upd_item. reflexivity. Qed.

Lemma eh_fmt v : extends_histories (fmt v).
Proof. unfold fmt. destruct (py_str v); [apply eh_ret | apply eh_raise]. Qed.

Lemma eh_fmt_key r k : extends_histories (fmt_key r k).
Proof. apply eh_bind; [apply eh_getitem | intros; apply eh_fmt]. Qed.

Lemma eh_start_item t r : extends_histories (start_item t r).
Proof. intros w. repeat split; try reflexivity. by apply prefix_app_r. Qed.

Lemma eh_complete_item nm r : extends_histories (complete_item nm r).
Proof. intros w. repeat split; try reflexivity. by apply prefix_app_r. Qed.

Lemma eh_add_timeout d t r : extends_histories (add_timeout d t r).
Proof. intros w. repeat split; reflexivity. Qed.

Lemma eh_fs_do fs op : extends_histories (fs_do fs op).
Proof.
  intros w. unfold fs_do. destruct (fs_fault fs op); [apply grows_refl |].
  repeat split; try reflexivity. by apply prefix_app_r.
Qed.

Lemma eh_new_periodic_callback r p : extends_histories (new_periodic_callback r p).
Proof. intros w. repeat split; reflexivity. Qed.

Lemma eh_timer_switch b v : extends_histories (timer_switch b v).
Proof. destruct v; try apply eh_raise. intros w. repeat split; reflexivity. Qed.

Lemma eh_slice v : extends_histories (slice_0_5 v).
Proof. destruct v; try apply eh_raise. apply eh_ret. Qed.

Lemma eh_json_dumps v : extends_histories (json_dumps v).
Proof. apply eh_call. Qed.

Create HintDb histories.
#[local] Hint Resolve eh_ret eh_raise eh_call eh_getitem eh_setitem eh_delitem
  eh_contains eh_log_output eh_assign_may_be_canceled eh_fmt eh_fmt_key
  eh_start_item eh_complete_item eh_add_timeout eh_fs_do eh_new_periodic_callback
  eh_timer_switch eh_slice eh_json_dumps : histories.

(** Walks through a block of stage code, checking that it only appends. *)
Ltac eh_tac :=
  repeat first
    [ apply eh_bind; [| intros ]
    | apply eh_try
    | match goal with
      | |- extends_histories (if ?b then _ else _) => destruct b
      | |- extends_histories (fun w => (Ret _, w)) => apply eh_read
      end
    | solve [ auto with histories ] ].

Lemma eh_set_target_paths r : extends_histories (set_target_paths r).
Proof. unfold set_target_paths. eh_tac. Qed.

Lemma eh_process ctl t r : extends_histories (process ctl t r).
Proof.
  pose proof (eh_set_target_paths r).
  unfold process, GetItemFromQueue_process, RelabelIfAborted_process,
    SetWarcFileSizeInRedis_process, MarkItemAsDone_process, on_connection_error,
    notify_connection_error, notify_retry, schedule_retry.
  destruct (body t); eh_tac.
Qed.

Lemma eh_run ev : extends_histories (run ev).
Proof.
  destruct ev; cbn [run].
  - unfold enqueue. pose proof (eh_process ctl t r). eh_tac.
  - intros w. unfold fire. destruct (timeouts w !! i) as [to |]; [| apply grows_refl].
    assert (Hr : extends_histories (retry ctl (to_task to) (to_item to))).
    { unfold retry. pose proof (eh_process ctl (to_task to) (to_item to)). eh_tac. }
    apply (Hr (drop_timeout i w)).
  - intros w. unfold cancel. destruct (may_be_canceled (items w r)); [| apply grows_refl].
    apply grows_upd_item. reflexivity.
  - unfold StartHeartbeat_process. eh_tac.
  - intros w. unfold tick. destruct (timers w !! id) as [tm |]; [| apply grows_refl].
    destruct (tm_running tm); [| apply grows_refl].
    assert (Hs : extends_histories (send_heartbeat ctl (tm_item tm))).
    { unfold send_heartbeat. eh_tac. }
    apply Hs.
  - unfold SetFetchDepth_process. eh_tac.
  - unfold PreparePaths_process. pose proof (eh_set_target_paths r). eh_tac.
  - unfold WriteInfo_process. eh_tac.
  - unfold MoveFiles_process. eh_tac.
  - unfold StopHeartbeat_process. eh_tac.
Qed.

(** X27.  Histories are only extended: whatever happens in the pipeline, a
    stage running or failing, a retry firing, a cancellation, every line of
    every item's output log, every completion and start reported to the
    pipeline and every filesystem call made so far stays where it was. *)
Theorem histories_only_grow ev w :
  (forall r, output (items w r) `prefix_of` output (items (exec ev w) r)) /\
  completed w `prefix_of` completed (exec ev w) /\
  started w `prefix_of` started (exec ev w) /\
  fs_trace w `prefix_of` fs_trace (exec ev w).
Proof. apply (eh_run ev w). Qed.

(** X28.  [enqueue] announces a stage before running it: whether [process]
    then completes, schedules a retry or raises, the pipeline was told the
    stage started on the item and the item's log holds the line naming the
    stage right after the lines it held before. *)
Theorem enqueue_announces_the_stage ctl descr t r w :
  exists lines stages,
    output (items (snd (enqueue ctl descr t r w)) r) =
      (output (items w r) ++
       ("Starting " +:+ name t +:+ " for " +:+ descr (items w r)) :: lines)%list /\
    started (snd (enqueue ctl descr t r w)) = (started w ++ (name t, r) :: stages)%list.
Proof.
  rewrite enqueue_unfold.
  set (w1 := snd (log_output r ("Starting " +:+ task_str t +:+ " for " +:+ descr (items w r))
                    (snd (start_item t r w)))).
  destruct (eh_process ctl t r w1) as (Ho & _ & Hs & _).
  destruct (Ho r) as [lines Hl], Hs as [stages Hst].
  exists lines, stages. rewrite Hl, Hst. subst w1.
  cbn [snd log_output start_item]. autorewrite with world. fields.
  split; by rewrite <- app_assoc.
Qed.

(** ** Who writes the job attributes *)

Lemma ka_set_target_paths a r :
  a ∈ job_attributes -> keeps_attribute a (set_target_paths r).
Proof.
  intros Ha. unfold job_attributes in Ha. unfold set_target_paths.
  repeat (apply elem_of_cons in Ha as [-> | Ha]); [ka_tac .. |].
  by apply elem_of_nil in Ha.
Qed.

Lemma ka_process_other a ctl t r :
  a ∈ job_attributes ->
  (forall pid, body t <> BGetItemFromQueue pid) ->
  keeps_attribute a (process ctl t r).
Proof.
  intros Ha Hb. pose proof (ka_set_target_paths a r Ha).
  unfold process, RelabelIfAborted_process,
    SetWarcFileSizeInRedis_process, MarkItemAsDone_process, on_connection_error,
    notify_connection_error, notify_retry, schedule_retry.
  destruct (body t) as [pid | | | x]; [by destruct (Hb pid) | ..];
    unfold job_attributes in Ha;
    repeat (apply elem_of_cons in Ha as [-> | Ha]);
    try (by apply elem_of_nil in Ha); ka_tac.
Qed.

Lemma ka_simple_stages a fs now ctl id r :
  a ∈ job_attributes ->
  keeps_attribute a (SetFetchDepth_process r) /\
  keeps_attribute a (PreparePaths_process fs now r) /\
  keeps_attribute a (WriteInfo_process fs r) /\
  keeps_attribute a (MoveFiles_process fs r) /\
  keeps_attribute a (send_heartbeat ctl id).
Proof.
  intros Ha. pose proof (ka_set_target_paths a r Ha).
  unfold SetFetchDepth_process, PreparePaths_process, WriteInfo_process,
    MoveFiles_process, send_heartbeat.
  unfold job_attributes in Ha.
  repeat (apply elem_of_cons in Ha as [-> | Ha]);
    try (by apply elem_of_nil in Ha);
    (split; [| split; [| split; [| split]]]); ka_tac.
Qed.


